(** * BacteriaHunter: the simulation core of [src/components/games/BacteriaHunter.tsx]

    A shallow embedding of the game's level generator, spawner, steering,
    projectile and scoring code, and of its key, mouse and click handlers
    with the player movement.  JavaScript numbers that carry geometry or
    time steps are read as real numbers ([R]); hit points, points, scores,
    counters and millisecond time stamps are integers ([Z]).  The steering
    step is given a second time in IEEE 754 binary64 ([Module Double]), the
    arithmetic the program runs in, for what depends on rounding.  Meshes,
    materials, lights and the renderer are presentation and are left out; of
    a mesh only its [position] is kept. *)

From Stdlib Require Import Reals Lra Lia ZArith List String Bool.
From Stdlib Require Floats.
Import ListNotations.
Open Scope R_scope.

(** ** three.js [Vector3]

    The methods of the vector library that the game calls, after the
    library's own definitions: [normalize] is [divideScalar(length() || 1)],
    [lerp(v, a)] adds [(v - this) * a] to each coordinate, [distanceTo] is the
    square root of [distanceToSquared].  Over [R] a normalized vector has
    length exactly 1 (or is the zero vector); in binary64 its length is 1
    only up to rounding, see [Double.Vector3]. *)
Module Vector3.

Record t : Type := mk { x : R; y : R; z : R }.

Definition zero : t := mk 0 0 0.

Definition add (a b : t) : t := mk (x a + x b) (y a + y b) (z a + z b).
Definition sub (a b : t) : t := mk (x a - x b) (y a - y b) (z a - z b).
Definition multiplyScalar (a : t) (s : R) : t := mk (x a * s) (y a * s) (z a * s).
Definition divideScalar (a : t) (s : R) : t := multiplyScalar a (1 / s).

Definition lengthSq (a : t) : R := x a * x a + y a * y a + z a * z a.
Definition length (a : t) : R := sqrt (lengthSq a).

(** [length() || 1]: a zero length is falsy. *)
Definition lengthOr1 (a : t) : R :=
  if Req_dec_T (length a) 0 then 1 else length a.

Definition normalize (a : t) : t := divideScalar a (lengthOr1 a).

Definition lerp (a v : t) (alpha : R) : t :=
  mk (x a + (x v - x a) * alpha)
     (y a + (y v - y a) * alpha)
     (z a + (z v - z a) * alpha).

Definition distanceToSquared (a v : t) : R :=
  let dx := x a - x v in
  let dy := y a - y v in
  let dz := z a - z v in
  dx * dx + dy * dy + dz * dz.

Definition distanceTo (a v : t) : R := sqrt (distanceToSquared a v).

Definition setY (a : t) (v : R) : t := mk (x a) v (z a).

End Vector3.

Definition Vec3 : Type := Vector3.t.

(** ** Data model *)

Inductive Behavior : Type := wander | chase.

Record BacteriaType : Type := mkBacteriaType {
  name : string;
  color : Z;
  speed : R;
  health : Z;
  points : Z;
  behavior : Behavior;
  fact : string;
  scale : R
}.

Definition ecoli : BacteriaType := {|
  name := "E. coli";
  color := 0x88ff88;
  speed := 2;
  health := 1;
  points := 10;
  behavior := wander;
  fact := "E. coli normally lives harmlessly in your intestines!";
  scale := 0.4
|}.

Definition streptococcus : BacteriaType := {|
  name := "Streptococcus";
  color := 0xff88ff;
  speed := 3;
  health := 2;
  points := 25;
  behavior := chase;
  fact := "Streptococcus forms chains and can cause strep throat!";
  scale := 0.35
|}.

(** The [Record<string, BacteriaType>] object, in insertion order. *)
Definition BACTERIA_TYPES : list (string * BacteriaType) :=
  [ ("ecoli"%string, ecoli); ("streptococcus"%string, streptococcus) ].

(** [Object.keys(BACTERIA_TYPES)] and [BACTERIA_TYPES[key]]. *)
Definition Object_keys (o : list (string * BacteriaType)) : list string :=
  map fst o.

Fixpoint lookupType (o : list (string * BacteriaType)) (k : string)
  : option BacteriaType :=
  match o with
  | [] => None
  | (k', v) :: rest => if String.eqb k' k then Some v else lookupType rest k
  end.

(** A live bacterium: [b_position] is [mesh.position], [b_health] the mutable
    [health] field (the type's [health] is the initial value). *)
Record Bacteria : Type := mkBacteria {
  b_position : Vec3;
  b_type : BacteriaType;
  b_health : Z;
  velocity : Vec3;
  targetPosition : option Vec3;
  wanderTimer : R
}.

Record Projectile : Type := mkProjectile {
  p_position : Vec3;
  direction : Vec3;
  p_speed : R;
  createdAt : Z
}.

Record Room : Type := mkRoom {
  position : Vec3;
  width : R;
  height : R;
  depth : R;
  hasBacteria : bool
}.

(** ** [Math.random]

    The values returned by successive calls of [Math.random()] are given by a
    sequence [random]; the computation threads the number of calls made so
    far. *)
Definition Rand (A : Type) : Type := nat -> A * nat.

Definition ret {A} (a : A) : Rand A := fun n => (a, n).

Definition bind {A B} (m : Rand A) (k : A -> Rand B) : Rand B :=
  fun n => let '(a, n') := m n in k a n'.

Declare Scope rand_scope.
Delimit Scope rand_scope with rand.
Notation "x <- m ;; k" := (bind m (fun x => k))
  (at level 61, m at next level, right associativity) : rand_scope.
Notation "' pat <- m ;; k" :=
  (bind m (fun x => match x with pat => k end))
  (at level 61, pat pattern, m at next level, right associativity) : rand_scope.

Section Level.

Variable random : nat -> R.

Definition Math_random : Rand R := fun n => (random n, S n).

(** One peripheral room of [generateLevel]: three draws, in the order
    width, height, depth. *)
Definition peripheralRoom (dir : Vec3) : Rand Room :=
  (w <- Math_random ;;
   h <- Math_random ;;
   d <- Math_random ;;
   ret (mkRoom dir (10 + w * 6) (5 + h * 3) (10 + d * 6) true))%rand.

(** [directions.forEach(dir => rooms.push(...))]. *)
Fixpoint pushRooms (dirs : list Vec3) (rooms : list Room) : Rand (list Room) :=
  match dirs with
  | [] => ret rooms
  | dir :: rest =>
      (r <- peripheralRoom dir ;; pushRooms rest (rooms ++ [r]))%rand
  end.

Definition directions : list Vec3 :=
  [ Vector3.mk 0 0 (-20); Vector3.mk 20 0 0;
    Vector3.mk (-20) 0 0; Vector3.mk 0 0 (-40) ].

Definition spawnRoom : Room := mkRoom (Vector3.mk 0 0 0) 12 6 12 false.

Definition generateLevel : Rand (list Room) :=
  pushRooms directions [spawnRoom].

(** *** [spawnBacteriaInRoom] *)

(** [types[Math.floor(Math.random() * types.length)]]; an index outside
    the array reads [undefined]. *)
Definition chooseTypeKey : Rand (option string) :=
  (r <- Math_random ;;
   let types := Object_keys BACTERIA_TYPES in
   let i := Zfloor (r * INR (List.length types)) in
   ret (if (i <? 0)%Z then None else nth_error types (Z.to_nat i)))%rand.

(** The draws made while the mesh group is built: three flagella rotations
    for E. coli, the chain length for Streptococcus.  The meshes themselves
    are presentation. *)
Definition buildGroup (typeKey : string) : Rand unit :=
  if String.eqb typeKey "ecoli" then
    (_ <- Math_random ;; _ <- Math_random ;; _ <- Math_random ;; ret tt)%rand
  else
    (_ <- Math_random ;; ret tt)%rand.

(** One iteration of the spawn loop.  [None] is the [TypeError] raised when
    the type read from the table is [undefined]. *)
Definition spawnOne (room : Room) : Rand (option Bacteria) :=
  (k <- chooseTypeKey ;;
   match k with
   | None => ret None
   | Some typeKey =>
       match lookupType BACTERIA_TYPES typeKey with
       | None => ret None
       | Some type =>
           _ <- buildGroup typeKey ;;
           rx <- Math_random ;;
           ry <- Math_random ;;
           rz <- Math_random ;;
           let spawnPos :=
             Vector3.mk
               (Vector3.x (position room) + (rx - 0.5) * (width room - 2))
               (1 + ry * 2)
               (Vector3.z (position room) + (rz - 0.5) * (depth room - 2)) in
           rt <- Math_random ;;
           ret (Some (mkBacteria spawnPos type (health type)
                                 Vector3.zero None (rt * 2)))
       end
   end)%rand.

(** [for (let i = 0; i < bacteriaCount; i++)], pushing onto
    [bacteriaRef.current]. *)
Fixpoint spawnLoop (room : Room) (count : nat) (bs : list Bacteria)
  : Rand (option (list Bacteria)) :=
  match count with
  | O => ret (Some bs)
  | S c =>
      (ob <- spawnOne room ;;
       match ob with
       | None => ret None
       | Some b => spawnLoop room c (bs ++ [b])
       end)%rand
  end.

(** Returns the count and the extended [bacteriaRef.current]. *)
Definition spawnBacteriaInRoom (room : Room) (roomIndex : nat)
    (bs : list Bacteria) : Rand (option (Z * list Bacteria)) :=
  (r <- Math_random ;;
   let bacteriaCount := (3 + Zfloor (r * 3))%Z in
   res <- spawnLoop room (Z.to_nat bacteriaCount) bs ;;
   ret (option_map (fun bs' => (bacteriaCount, bs')) res))%rand.

(** [rooms.forEach((room, index) => { if (room.hasBacteria) ... })] of the
    mount effect, with the running [bacteriaCount]. *)
Fixpoint spawnRooms (rooms : list Room) (index : nat) (bacteriaCount : Z)
    (bs : list Bacteria) : Rand (option (Z * list Bacteria)) :=
  match rooms with
  | [] => ret (Some (bacteriaCount, bs))
  | room :: rest =>
      if hasBacteria room then
        (res <- spawnBacteriaInRoom room index bs ;;
         match res with
         | None => ret None
         | Some (count, bs') =>
             spawnRooms rest (S index) (bacteriaCount + count)%Z bs'
         end)%rand
      else spawnRooms rest (S index) bacteriaCount bs
  end.

(** *** [updateBacteria] *)

(** The re-targeting block of the wander branch: four draws. *)
Definition wanderRetarget (bacteria : Bacteria) (timer : R)
  : Rand (Vec3 * R) :=
  match targetPosition bacteria with
  | Some target =>
      if Rle_dec timer 0 then
        (rx <- Math_random ;; ry <- Math_random ;; rz <- Math_random ;;
         rt <- Math_random ;;
         ret (Vector3.add (b_position bacteria)
                (Vector3.mk ((rx - 0.5) * 6) ((ry - 0.5) * 2) ((rz - 0.5) * 6)),
              2 + rt * 2))%rand
      else ret (target, timer)
  | None =>
      (rx <- Math_random ;; ry <- Math_random ;; rz <- Math_random ;;
       rt <- Math_random ;;
       ret (Vector3.add (b_position bacteria)
              (Vector3.mk ((rx - 0.5) * 6) ((ry - 0.5) * 2) ((rz - 0.5) * 6)),
            2 + rt * 2))%rand
  end.

(** The re-targeting block of the chase branch far from the player: three
    draws, no vertical offset. *)
Definition chaseRetarget (bacteria : Bacteria) (timer : R)
  : Rand (Vec3 * R) :=
  match targetPosition bacteria with
  | Some target =>
      if Rle_dec timer 0 then
        (rx <- Math_random ;; rz <- Math_random ;; rt <- Math_random ;;
         ret (Vector3.add (b_position bacteria)
                (Vector3.mk ((rx - 0.5) * 6) 0 ((rz - 0.5) * 6)),
              2 + rt * 2))%rand
      else ret (target, timer)
  | None =>
      (rx <- Math_random ;; rz <- Math_random ;; rt <- Math_random ;;
       ret (Vector3.add (b_position bacteria)
              (Vector3.mk ((rx - 0.5) * 6) 0 ((rz - 0.5) * 6)),
            2 + rt * 2))%rand
  end.

(** The behaviour switch: new velocity, target and timer. *)
Definition steerVelocity (playerPos : Vec3) (bacteria : Bacteria) (timer : R)
  : Rand (Vec3 * option Vec3 * R) :=
  match behavior (b_type bacteria) with
  | wander =>
      ('(target, timer') <- wanderRetarget bacteria timer ;;
       let direction :=
         Vector3.normalize (Vector3.sub target (b_position bacteria)) in
       ret (Vector3.lerp (velocity bacteria)
              (Vector3.multiplyScalar direction (speed (b_type bacteria)))
              0.02,
            Some target, timer'))%rand
  | chase =>
      let distToPlayer := Vector3.distanceTo (b_position bacteria) playerPos in
      if Rlt_dec distToPlayer 15 then
        let direction :=
          Vector3.normalize (Vector3.sub playerPos (b_position bacteria)) in
        ret (Vector3.lerp (velocity bacteria)
               (Vector3.multiplyScalar direction (speed (b_type bacteria)))
               0.05,
             targetPosition bacteria, timer)
      else
        ('(target, timer') <- chaseRetarget bacteria timer ;;
         let direction :=
           Vector3.normalize (Vector3.sub target (b_position bacteria)) in
         ret (Vector3.lerp (velocity bacteria)
                (Vector3.multiplyScalar direction
                   (speed (b_type bacteria) * 0.5))
                0.02,
              Some target, timer'))%rand
  end.

(** The body of [bacteriaRef.current.forEach] in [updateBacteria]. *)
Definition steer (playerPos : Vec3) (deltaTime : R) (bacteria : Bacteria)
  : Rand Bacteria :=
  if (b_health bacteria <=? 0)%Z then ret bacteria
  else
    ('(v, target, timer) <-
        steerVelocity playerPos bacteria (wanderTimer bacteria - deltaTime) ;;
     let p := Vector3.add (b_position bacteria)
                (Vector3.multiplyScalar v deltaTime) in
     let p' := Vector3.setY p (Rmax 0.5 (Rmin 5 (Vector3.y p))) in
     ret (mkBacteria p' (b_type bacteria) (b_health bacteria) v target timer))%rand.

Fixpoint updateBacteria (playerPos : Vec3) (deltaTime : R)
    (bs : list Bacteria) : Rand (list Bacteria) :=
  match bs with
  | [] => ret []
  | b :: rest =>
      (b' <- steer playerPos deltaTime b ;;
       rest' <- updateBacteria playerPos deltaTime rest ;;
       ret (b' :: rest'))%rand
  end.

End Level.

(** ** [shoot] *)

Record Quaternion : Type := mkQuaternion { qx : R; qy : R; qz : R; qw : R }.

(** three.js [Vector3.applyQuaternion]: [v + qw * t + cross(q.xyz, t)] with
    [t = 2 * cross(q.xyz, v)]. *)
Definition applyQuaternion (v : Vec3) (q : Quaternion) : Vec3 :=
  let vx := Vector3.x v in
  let vy := Vector3.y v in
  let vz := Vector3.z v in
  let tx := 2 * (qy q * vz - qz q * vy) in
  let ty := 2 * (qz q * vx - qx q * vz) in
  let tz := 2 * (qx q * vy - qy q * vx) in
  Vector3.mk (vx + qw q * tx + qy q * tz - qz q * ty)
             (vy + qw q * ty + qz q * tx - qx q * tz)
             (vz + qw q * tz + qx q * ty - qy q * tx).

Record Camera : Type := mkCamera {
  cam_position : Vec3;
  quaternion : Quaternion
}.

(** [now] is the value of [Date.now()] at the call. *)
Definition shoot (camera : Camera) (now : Z) (projectiles : list Projectile)
  : list Projectile :=
  let direction := applyQuaternion (Vector3.mk 0 0 (-1)) (quaternion camera) in
  projectiles ++ [mkProjectile (cam_position camera) direction 25 now].

(** ** [updateProjectiles] *)

(** The two local index arrays of a pass. *)
Record Marks : Type := mkMarks {
  projectilesToRemove : list nat;
  bacteriaToRemove : list nat
}.

Definition setHealth (bacteria : Bacteria) (h : Z) : Bacteria :=
  mkBacteria (b_position bacteria) (b_type bacteria) h (velocity bacteria)
             (targetPosition bacteria) (wanderTimer bacteria).

(** [distance < 0.6] *)
Definition hits (ppos : Vec3) (bacteria : Bacteria) : bool :=
  if Rlt_dec (Vector3.distanceTo ppos (b_position bacteria)) 0.6
  then true else false.

(** The body of the inner [bacteriaRef.current.forEach((bacteria, bIndex) => ...)]. *)
Definition collide (ppos : Vec3) (pIndex bIndex : nat) (bacteria : Bacteria)
    (m : Marks) : Bacteria * Marks :=
  if (b_health bacteria <=? 0)%Z then (bacteria, m)
  else if hits ppos bacteria then
    let bacteria' := setHealth bacteria (b_health bacteria - 1) in
    (bacteria',
     mkMarks (projectilesToRemove m ++ [pIndex])
             (if (b_health bacteria' <=? 0)%Z
              then bacteriaToRemove m ++ [bIndex]
              else bacteriaToRemove m))
  else (bacteria, m).

(** The inner loop: every bacterium is visited, whatever happened before. *)
Fixpoint checkCollisions (ppos : Vec3) (pIndex bIndex : nat)
    (bs : list Bacteria) (m : Marks) : list Bacteria * Marks :=
  match bs with
  | [] => ([], m)
  | bacteria :: rest =>
      let '(bacteria', m1) := collide ppos pIndex bIndex bacteria m in
      let '(rest', m2) := checkCollisions ppos pIndex (S bIndex) rest m1 in
      (bacteria' :: rest', m2)
  end.

(** [projectile.mesh.position.add(direction.clone().multiplyScalar(speed * deltaTime))] *)
Definition advance (deltaTime : R) (projectile : Projectile) : Projectile :=
  mkProjectile
    (Vector3.add (p_position projectile)
       (Vector3.multiplyScalar (direction projectile)
          (p_speed projectile * deltaTime)))
    (direction projectile) (p_speed projectile) (createdAt projectile).

(** [Date.now() - projectile.createdAt > 3000] *)
Definition expired (now : Z) (projectile : Projectile) : bool :=
  (now - createdAt projectile >? 3000)%Z.

(** The body of the outer [forEach]: bacteria and marks after projectile
    [pIndex] has been handled. *)
Definition handleProjectile (now : Z) (pIndex : nat) (moved : Projectile)
    (bs : list Bacteria) (m : Marks) : list Bacteria * Marks :=
  if expired now moved then
    (bs, mkMarks (projectilesToRemove m ++ [pIndex]) (bacteriaToRemove m))
  else checkCollisions (p_position moved) pIndex 0 bs m.

(** The outer loop; [now i] is what [Date.now()] returns in iteration [i]. *)
Fixpoint moveAndCollide (now : nat -> Z) (deltaTime : R) (pIndex : nat)
    (ps : list Projectile) (bs : list Bacteria) (m : Marks)
  : list Projectile * list Bacteria * Marks :=
  match ps with
  | [] => ([], bs, m)
  | projectile :: rest =>
      let moved := advance deltaTime projectile in
      let '(bs1, m1) := handleProjectile (now pIndex) pIndex moved bs m in
      let '(rest', bs2, m2) :=
        moveAndCollide now deltaTime (S pIndex) rest bs1 m1 in
      (moved :: rest', bs2, m2)
  end.

(** [Array.from(new Set(xs))]: first occurrences, in order. *)
Fixpoint dedupe (seen xs : list nat) : list nat :=
  match xs with
  | [] => []
  | a :: rest =>
      if existsb (Nat.eqb a) seen then dedupe seen rest
      else a :: dedupe (a :: seen) rest
  end.

Fixpoint insertDesc (a : nat) (l : list nat) : list nat :=
  match l with
  | [] => [a]
  | b :: rest => if (b <=? a)%nat then a :: l else b :: insertDesc a rest
  end.

(** [.sort((a, b) => b - a)] *)
Definition sortDesc (l : list nat) : list nat := fold_right insertDesc [] l.

Definition uniqueDesc (xs : list nat) : list nat := sortDesc (dedupe [] xs).

(** [arr.splice(index, 1)] *)
Fixpoint splice1 {A : Type} (index : nat) (l : list A) : list A :=
  match l, index with
  | [], _ => []
  | _ :: rest, O => rest
  | a :: rest, S i => a :: splice1 i rest
  end.

Definition removeProjectiles (indices : list nat) (ps : list Projectile)
  : list Projectile :=
  fold_left
    (fun ps index =>
       match nth_error ps index with
       | Some _ => splice1 index ps
       | None => ps
       end)
    indices ps.

(** ** Score and completion *)

(** The component's state variables and, as logs (oldest call first), the
    arguments with which the two callback props have been invoked. *)
Record GameState : Type := mkGameState {
  score : Z;
  bacteriaKilled : Z;
  totalBacteria : Z;
  gameComplete : bool;
  onScoreUpdate_calls : list Z;
  onComplete_calls : list Z
}.

Definition setScore (v : Z) (st : GameState) : GameState :=
  mkGameState v (bacteriaKilled st) (totalBacteria st) (gameComplete st)
              (onScoreUpdate_calls st) (onComplete_calls st).

Definition setBacteriaKilled (v : Z) (st : GameState) : GameState :=
  mkGameState (score st) v (totalBacteria st) (gameComplete st)
              (onScoreUpdate_calls st) (onComplete_calls st).

Definition setTotalBacteria (v : Z) (st : GameState) : GameState :=
  mkGameState (score st) (bacteriaKilled st) v (gameComplete st)
              (onScoreUpdate_calls st) (onComplete_calls st).

Definition setGameComplete (v : bool) (st : GameState) : GameState :=
  mkGameState (score st) (bacteriaKilled st) (totalBacteria st) v
              (onScoreUpdate_calls st) (onComplete_calls st).

Definition onScoreUpdate (v : Z) (st : GameState) : GameState :=
  mkGameState (score st) (bacteriaKilled st) (totalBacteria st)
              (gameComplete st) (onScoreUpdate_calls st ++ [v])
              (onComplete_calls st).

Definition onComplete (v : Z) (st : GameState) : GameState :=
  mkGameState (score st) (bacteriaKilled st) (totalBacteria st)
              (gameComplete st) (onScoreUpdate_calls st)
              (onComplete_calls st ++ [v]).

(** [useState(0)], [useState(0)], [useState(0)], [useState(false)]. *)
Definition initialState : GameState := mkGameState 0 0 0 false [] [].

(** The variables [score], [totalBacteria] and [gameComplete] as a function
    body sees them: the values of the render in which the function was
    created. *)
Record Captured : Type := mkCaptured {
  cap_score : Z;
  cap_totalBacteria : Z;
  cap_gameComplete : bool
}.

(** [updateProjectiles] is created inside the effect with dependency list
    [[]], which runs once, after the first render: it closes over the initial
    values for as long as the component is mounted. *)
Definition mountClosure : Captured :=
  mkCaptured (score initialState) (totalBacteria initialState)
             (gameComplete initialState).

(** [Math.ceil(totalBacteria * 0.8)] *)
Definition completionThreshold (total : Z) : Z := Zceil (IZR total * 0.8).

(** The scoring part of the body of [uniqueBacteria.forEach], for the
    bacterium found at the index.  The updater passed to [setBacteriaKilled]
    is applied to the current kill count; state setters are applied in
    program order. *)
Definition scoreKill (cap : Captured) (bacteria : Bacteria) (st : GameState)
  : GameState :=
  let newScore := (cap_score cap + points (b_type bacteria))%Z in
  let st1 := onScoreUpdate newScore (setScore newScore st) in
  let newCount := (bacteriaKilled st1 + 1)%Z in
  let st2 :=
    if (newCount >=? completionThreshold (cap_totalBacteria cap))%Z
       && negb (cap_gameComplete cap)
    then
      let bonusScore := (newScore + 50)%Z in
      onComplete (Z.min 100 bonusScore)
        (setScore bonusScore (setGameComplete true st1))
    else st1 in
  setBacteriaKilled newCount st2.

Definition removeBacteria (cap : Captured) (indices : list nat)
    (bs : list Bacteria) (st : GameState) : list Bacteria * GameState :=
  fold_left
    (fun '(bs, st) index =>
       match nth_error bs index with
       | Some bacteria => (splice1 index bs, scoreKill cap bacteria st)
       | None => (bs, st)
       end)
    indices (bs, st).

Definition updateProjectiles (cap : Captured) (now : nat -> Z) (deltaTime : R)
    (ps : list Projectile) (bs : list Bacteria) (st : GameState)
  : list Projectile * list Bacteria * GameState :=
  let '(ps1, bs1, m) := moveAndCollide now deltaTime 0 ps bs (mkMarks [] []) in
  let ps2 := removeProjectiles (uniqueDesc (projectilesToRemove m)) ps1 in
  let '(bs2, st2) :=
    removeBacteria cap (uniqueDesc (bacteriaToRemove m)) bs1 st in
  (ps2, bs2, st2).

(** The second effect of the component ("Sync score with state for
    completion check"), which reads the state of the current render. *)
Definition completionEffect (st : GameState) : GameState :=
  if (bacteriaKilled st >? 0)%Z && (totalBacteria st >? 0)%Z then
    if (bacteriaKilled st >=? completionThreshold (totalBacteria st))%Z
       && negb (gameComplete st)
    then
      let bonusScore := (score st + 50)%Z in
      onComplete (Z.min 100 bonusScore)
        (setScore bonusScore (setGameComplete true st))
    else st
  else st.

(** ** The component as a transition system *)

Record World : Type := mkWorld {
  bacteriaRef : list Bacteria;
  projectilesRef : list Projectile;
  state : GameState;
  calls : nat
}.

Inductive Event : Type :=
| Click (camera : Camera) (now : Z)
| Frame (delta : R) (cameraPos : Vec3) (now : nat -> Z).

Section Driver.

Variable random : nat -> R.

(** The draws of [createLevelGeometry]: nine for each of the thirty
    floating cells. *)
Definition createLevelGeometry (rooms : list Room) : Rand unit :=
  fun n => (tt, (n + 30 * 9)%nat).

(** The mount effect up to [setTotalBacteria]. *)
Definition mount : option World :=
  let '(rooms, n1) := generateLevel random 0%nat in
  let '(_, n2) := createLevelGeometry rooms n1 in
  let '(res, n3) := spawnRooms random rooms 0 0 [] n2 in
  match res with
  | None => None
  | Some (bacteriaCount, bs) =>
      Some (mkWorld bs [] (setTotalBacteria bacteriaCount initialState) n3)
  end.

(** [animate]: [cameraPos] is the camera position after [updatePlayer];
    the re-render that follows runs the completion effect. *)
Definition animate (delta : R) (cameraPos : Vec3) (now : nat -> Z)
    (w : World) : World :=
  let deltaTime := Rmin delta 0.1 in
  let '(bs1, n1) :=
    updateBacteria random cameraPos deltaTime (bacteriaRef w) (calls w) in
  let '(ps2, bs2, st2) :=
    updateProjectiles mountClosure now deltaTime (projectilesRef w) bs1
                      (state w) in
  mkWorld bs2 ps2 (completionEffect st2) n1.

Definition step (w : World) (e : Event) : World :=
  match e with
  | Click camera now =>
      mkWorld (bacteriaRef w) (shoot camera now (projectilesRef w))
              (state w) (calls w)
  | Frame delta cameraPos now => animate delta cameraPos now w
  end.

Definition run (events : list Event) (w : World) : World :=
  fold_left step events w.

End Driver.

(** ** Tunnels of [createLevelGeometry]

    The numbers computed for the tunnel of a room other than the spawn
    room; the meshes built from them are presentation. *)
Definition tunnelStart : Vec3 := Vector3.mk 0 1.5 0.

Definition tunnelEnd (room : Room) : Vec3 := Vector3.setY (position room) 1.5.

Definition tunnelLength (room : Room) : R :=
  Vector3.distanceTo tunnelStart (tunnelEnd room) - 8.

Definition tunnelMidPoint (room : Room) : Vec3 :=
  Vector3.multiplyScalar (Vector3.add tunnelStart (tunnelEnd room)) 0.5.

Definition tunnelDirection (room : Room) : Vec3 :=
  Vector3.normalize (Vector3.sub (tunnelEnd room) tunnelStart).

(** The planes of the four walls of a room: left and right ([x]), front and
    back ([z]). *)
Definition leftWall (room : Room) : R := Vector3.x (position room) - width room / 2.
Definition rightWall (room : Room) : R := Vector3.x (position room) + width room / 2.
Definition frontWall (room : Room) : R := Vector3.z (position room) - depth room / 2.
Definition backWall (room : Room) : R := Vector3.z (position room) + depth room / 2.

(** ** Input handlers and [updatePlayer] *)

(** [camera.rotation], an Euler triple with order ['YXZ'].  The handlers
    write only [x] (pitch) and [y] (yaw); [z] keeps its initial value 0. *)
Record Euler : Type := mkEuler { rot_x : R; rot_y : R }.

(** three.js [Quaternion.setFromEuler] for the order ['YXZ'], which keeps
    [camera.quaternion] in step with [camera.rotation]. *)
Definition setFromEulerYXZ (x y z : R) : Quaternion :=
  let c1 := cos (x / 2) in
  let c2 := cos (y / 2) in
  let c3 := cos (z / 2) in
  let s1 := sin (x / 2) in
  let s2 := sin (y / 2) in
  let s3 := sin (z / 2) in
  mkQuaternion (s1 * c2 * c3 + c1 * s2 * s3)
               (c1 * s2 * c3 - s1 * c2 * s3)
               (c1 * c2 * s3 - s1 * s2 * c3)
               (c1 * c2 * c3 + s1 * s2 * s3).

(** The camera ([position], [rotation]) and [playerPositionRef]. *)
Record Player : Type := mkPlayer {
  pl_position : Vec3;
  pl_rotation : Euler;
  playerPositionRef : Vec3
}.

(** [camera.position.set(0, 1.6, 0)], the default rotation, and
    [useRef(new THREE.Vector3(0, 1.6, 0))]. *)
Definition initialPlayer : Player :=
  mkPlayer (Vector3.mk 0 1.6 0) (mkEuler 0 0) (Vector3.mk 0 1.6 0).

Definition cameraOf (pl : Player) : Camera :=
  mkCamera (pl_position pl)
           (setFromEulerYXZ (rot_x (pl_rotation pl)) (rot_y (pl_rotation pl)) 0).

(** [handleMouseMove]: nothing unless the pointer is locked; otherwise yaw
    and pitch move against the mouse and the pitch is clamped. *)
Definition handleMouseMove (locked : bool) (movementX movementY : R)
    (rot : Euler) : Euler :=
  if negb locked then rot
  else
    let sensitivity := 0.002 in
    let y' := rot_y rot - movementX * sensitivity in
    let x' := rot_x rot - movementY * sensitivity in
    mkEuler (Rmax (- PI / 2 + 0.1) (Rmin (PI / 2 - 0.1) x')) y'.

(** [String.prototype.toLowerCase] on key codes, which are ASCII: the
    letters A to Z are mapped to a to z, every other character is kept. *)
Definition lowerAscii (c : Ascii.ascii) : Ascii.ascii :=
  let n := Ascii.nat_of_ascii c in
  if ((65 <=? n) && (n <=? 90))%nat then Ascii.ascii_of_nat (n + 32) else c.

Fixpoint toLowerCase (s : string) : string :=
  match s with
  | EmptyString => EmptyString
  | String c rest => String (lowerAscii c) (toLowerCase rest)
  end.

(** [keysRef.current], a [Set<string>]: members in insertion order. *)
Definition has (keys : list string) (k : string) : bool :=
  existsb (String.eqb k) keys.

Definition setAdd (k : string) (keys : list string) : list string :=
  if has keys k then keys else keys ++ [k].

Definition setDelete (k : string) (keys : list string) : list string :=
  filter (fun x => negb (String.eqb k x)) keys.

Definition handleKeyDown (code : string) (keys : list string) : list string :=
  setAdd (toLowerCase code) keys.

Definition handleKeyUp (code : string) (keys : list string) : list string :=
  setDelete (toLowerCase code) keys.

(** The four [if (keysRef.current.has(...))] lines of [updatePlayer]. *)
Definition moveInput (keys : list string) : Vec3 :=
  let z1 := if has keys "keyw" || has keys "arrowup" then 0 - 1 else 0 in
  let z2 := if has keys "keys" || has keys "arrowdown" then z1 + 1 else z1 in
  let x1 := if has keys "keya" || has keys "arrowleft" then 0 - 1 else 0 in
  let x2 := if has keys "keyd" || has keys "arrowright" then x1 + 1 else x1 in
  Vector3.mk x2 0 z2.

(** The vector added to the camera position when [moveVector] is not zero. *)
Definition playerMove (keys : list string) (deltaTime : R) (q : Quaternion)
  : Vec3 :=
  let moveSpeed := 5 in
  Vector3.setY
    (applyQuaternion
       (Vector3.multiplyScalar (Vector3.normalize (moveInput keys))
          (moveSpeed * deltaTime))
       q)
    0.

Definition updatePlayer (locked : bool) (keys : list string) (deltaTime : R)
    (pl : Player) : Player :=
  if negb locked then pl
  else if Rlt_dec 0 (Vector3.lengthSq (moveInput keys)) then
    let pos :=
      Vector3.add (pl_position pl)
        (playerMove keys deltaTime (quaternion (cameraOf pl))) in
    mkPlayer pos (pl_rotation pl) pos
  else pl.

(** ** The component with its input handlers *)

Record Session : Type := mkSession {
  world : World;
  player : Player;
  keys : list string;
  isPointerLocked : bool
}.

(** What the browser delivers: key and mouse events, pointer-lock changes
    (with the new lock status), clicks on the container (with the value of
    [Date.now()]) and animation frames (with the value of [clock.getDelta()]
    and the clock readings). *)
Inductive Input : Type :=
| KeyDown (code : string)
| KeyUp (code : string)
| MouseMove (movementX movementY : R)
| PointerLockChange (locked : bool)
| MouseClick (now : Z)
| AnimationFrame (delta : R) (now : nat -> Z).

Section Handlers.

Variable random : nat -> R.

Definition handle (s : Session) (i : Input) : Session :=
  match i with
  | KeyDown code =>
      mkSession (world s) (player s) (handleKeyDown code (keys s))
                (isPointerLocked s)
  | KeyUp code =>
      mkSession (world s) (player s) (handleKeyUp code (keys s))
                (isPointerLocked s)
  | MouseMove movementX movementY =>
      mkSession (world s)
        (mkPlayer (pl_position (player s))
           (handleMouseMove (isPointerLocked s) movementX movementY
              (pl_rotation (player s)))
           (playerPositionRef (player s)))
        (keys s) (isPointerLocked s)
  | PointerLockChange locked =>
      mkSession (world s) (player s) (keys s) locked
  | MouseClick now =>
      if isPointerLocked s then
        mkSession (step random (world s) (Click (cameraOf (player s)) now))
                  (player s) (keys s) (isPointerLocked s)
      else s
  | AnimationFrame delta now =>
      let deltaTime := Rmin delta 0.1 in
      let pl := updatePlayer (isPointerLocked s) (keys s) deltaTime (player s) in
      mkSession (animate random delta (pl_position pl) now (world s))
                pl (keys s) (isPointerLocked s)
  end.

Definition play (inputs : list Input) (s : Session) : Session :=
  fold_left handle inputs s.

(** The session after the mount effect: the mounted world, the camera at
    eye height, no key held, pointer not locked. *)
Definition startSession : option Session :=
  match mount random with
  | Some w => Some (mkSession w initialPlayer [] false)
  | None => None
  end.

End Handlers.

(** ** [updateBacteria] in binary64

    A JavaScript number is an IEEE 754 binary64 value and every arithmetic
    operation rounds to nearest.  Here the steering code is read once more
    over [float], operation by operation in the source's order of
    evaluation, with the library's [Vector3] methods as three.js defines
    them. *)
Module Double.

Import PrimFloat.
#[local] Open Scope float_scope.
#[local] Set Warnings "-inexact-float".

(** [Math.min] and [Math.max] of two numbers: [NaN] if either is [NaN]. *)
Definition Math_min (a b : float) : float :=
  if is_nan a || is_nan b then nan else if b <? a then b else a.

Definition Math_max (a b : float) : float :=
  if is_nan a || is_nan b then nan else if a <? b then b else a.

Module Vector3.

Record t : Type := mk { x : float; y : float; z : float }.

Definition zero : t := mk 0 0 0.

Definition add (a b : t) : t := mk (x a + x b) (y a + y b) (z a + z b).
Definition sub (a b : t) : t := mk (x a - x b) (y a - y b) (z a - z b).
Definition multiplyScalar (a : t) (s : float) : t := mk (x a * s) (y a * s) (z a * s).
Definition divideScalar (a : t) (s : float) : t := multiplyScalar a (1 / s).

Definition lengthSq (a : t) : float := x a * x a + y a * y a + z a * z a.
Definition length (a : t) : float := sqrt (lengthSq a).

(** [length() || 1]: zero and [NaN] are falsy. *)
Definition lengthOr1 (a : t) : float :=
  let l := length a in if (l =? 0) || is_nan l then 1 else l.

Definition normalize (a : t) : t := divideScalar a (lengthOr1 a).

Definition lerp (a v : t) (alpha : float) : t :=
  mk (x a + (x v - x a) * alpha)
     (y a + (y v - y a) * alpha)
     (z a + (z v - z a) * alpha).

Definition distanceToSquared (a v : t) : float :=
  let dx := x a - x v in
  let dy := y a - y v in
  let dz := z a - z v in
  dx * dx + dy * dy + dz * dz.

Definition distanceTo (a v : t) : float := sqrt (distanceToSquared a v).

Definition setY (a : t) (v : float) : t := mk (x a) v (z a).

End Vector3.

Record BacteriaType : Type := mkBacteriaType {
  name : string;
  color : Z;
  speed : float;
  health : Z;
  points : Z;
  behavior : Behavior;
  fact : string;
  scale : float
}.

Definition ecoli : BacteriaType := {|
  name := "E. coli";
  color := 0x88ff88;
  speed := 2;
  health := 1;
  points := 10;
  behavior := wander;
  fact := "E. coli normally lives harmlessly in your intestines!";
  scale := 0.4
|}.

Definition streptococcus : BacteriaType := {|
  name := "Streptococcus";
  color := 0xff88ff;
  speed := 3;
  health := 2;
  points := 25;
  behavior := chase;
  fact := "Streptococcus forms chains and can cause strep throat!";
  scale := 0.35
|}.

Record Bacteria : Type := mkBacteria {
  b_position : Vector3.t;
  b_type : BacteriaType;
  b_health : Z;
  velocity : Vector3.t;
  targetPosition : option Vector3.t;
  wanderTimer : float
}.

Section Steering.

Variable random : nat -> float.

Definition Math_random : Rand float := fun n => (random n, S n).

Definition wanderRetarget (bacteria : Bacteria) (timer : float)
  : Rand (Vector3.t * float) :=
  match targetPosition bacteria with
  | Some target =>
      if timer <=? 0 then
        (rx <- Math_random ;; ry <- Math_random ;; rz <- Math_random ;;
         rt <- Math_random ;;
         ret (Vector3.add (b_position bacteria)
                (Vector3.mk ((rx - 0.5) * 6) ((ry - 0.5) * 2) ((rz - 0.5) * 6)),
              2 + rt * 2))%rand
      else ret (target, timer)
  | None =>
      (rx <- Math_random ;; ry <- Math_random ;; rz <- Math_random ;;
       rt <- Math_random ;;
       ret (Vector3.add (b_position bacteria)
              (Vector3.mk ((rx - 0.5) * 6) ((ry - 0.5) * 2) ((rz - 0.5) * 6)),
            2 + rt * 2))%rand
  end.

Definition chaseRetarget (bacteria : Bacteria) (timer : float)
  : Rand (Vector3.t * float) :=
  match targetPosition bacteria with
  | Some target =>
      if timer <=? 0 then
        (rx <- Math_random ;; rz <- Math_random ;; rt <- Math_random ;;
         ret (Vector3.add (b_position bacteria)
                (Vector3.mk ((rx - 0.5) * 6) 0 ((rz - 0.5) * 6)),
              2 + rt * 2))%rand
      else ret (target, timer)
  | None =>
      (rx <- Math_random ;; rz <- Math_random ;; rt <- Math_random ;;
       ret (Vector3.add (b_position bacteria)
              (Vector3.mk ((rx - 0.5) * 6) 0 ((rz - 0.5) * 6)),
            2 + rt * 2))%rand
  end.

Definition steerVelocity (playerPos : Vector3.t) (bacteria : Bacteria)
    (timer : float) : Rand (Vector3.t * option Vector3.t * float) :=
  match behavior (b_type bacteria) with
  | wander =>
      ('(target, timer') <- wanderRetarget bacteria timer ;;
       let direction :=
         Vector3.normalize (Vector3.sub target (b_position bacteria)) in
       ret (Vector3.lerp (velocity bacteria)
              (Vector3.multiplyScalar direction (speed (b_type bacteria)))
              0.02,
            Some target, timer'))%rand
  | chase =>
      let distToPlayer := Vector3.distanceTo (b_position bacteria) playerPos in
      if distToPlayer <? 15 then
        let direction :=
          Vector3.normalize (Vector3.sub playerPos (b_position bacteria)) in
        ret (Vector3.lerp (velocity bacteria)
               (Vector3.multiplyScalar direction (speed (b_type bacteria)))
               0.05,
             targetPosition bacteria, timer)
      else
        ('(target, timer') <- chaseRetarget bacteria timer ;;
         let direction :=
           Vector3.normalize (Vector3.sub target (b_position bacteria)) in
         ret (Vector3.lerp (velocity bacteria)
                (Vector3.multiplyScalar direction
                   (speed (b_type bacteria) * 0.5))
                0.02,
              Some target, timer'))%rand
  end.

(** The body of [bacteriaRef.current.forEach] in [updateBacteria]. *)
Definition steer (playerPos : Vector3.t) (deltaTime : float)
    (bacteria : Bacteria) : Rand Bacteria :=
  if (b_health bacteria <=? 0)%Z then ret bacteria
  else
    ('(v, target, timer) <-
        steerVelocity playerPos bacteria (wanderTimer bacteria - deltaTime) ;;
     let p := Vector3.add (b_position bacteria)
                (Vector3.multiplyScalar v deltaTime) in
     let p' := Vector3.setY p (Math_max 0.5 (Math_min 5 (Vector3.y p))) in
     ret (mkBacteria p' (b_type bacteria) (b_health bacteria) v target timer))%rand.

Fixpoint updateBacteria (playerPos : Vector3.t) (deltaTime : float)
    (bs : list Bacteria) : Rand (list Bacteria) :=
  match bs with
  | [] => ret []
  | b :: rest =>
      (b' <- steer playerPos deltaTime b ;;
       rest' <- updateBacteria playerPos deltaTime rest ;;
       ret (b' :: rest'))%rand
  end.


End Steering.




End Double.

(** * Vocabulary of the statements *)

Definition roomInRange (r : Room) : Prop :=
  10 <= width r <= 16 /\ 5 <= height r <= 8 /\ 10 <= depth r <= 16.

(** What a bacterium freshly spawned in [room] looks like: one of the two
    types, full health, at rest, without target, horizontally inside the
    room shrunk by one unit on each side, at a height between 1 and 3. *)
Definition freshlySpawned (b : Bacteria) : Prop :=
  (b_type b = ecoli \/ b_type b = streptococcus) /\
  b_health b = health (b_type b) /\
  velocity b = Vector3.zero /\
  targetPosition b = None.

Definition spawnedIn (room : Room) (b : Bacteria) : Prop :=
  freshlySpawned b /\
  Vector3.x (position room) - width room / 2 + 1 <= Vector3.x (b_position b)
    <= Vector3.x (position room) + width room / 2 - 1 /\
  1 <= Vector3.y (b_position b) <= 3 /\
  Vector3.z (position room) - depth room / 2 + 1 <= Vector3.z (b_position b)
    <= Vector3.z (position room) + depth room / 2 - 1.

Definition sumZ (l : list Z) : Z := fold_right Z.add 0%Z l.

(** The values returned by the successive calls of [spawnBacteriaInRoom]
    that the mount loop makes. *)
Fixpoint roomCounts (random : nat -> R) (rooms : list Room) (index : nat)
    (bs : list Bacteria) (n : nat) : list Z :=
  match rooms with
  | [] => []
  | room :: rest =>
      if hasBacteria room then
        match spawnBacteriaInRoom random room index bs n with
        | (Some (count, bs'), n') =>
            count :: roomCounts random rest (S index) bs' n'
        | (None, _) => []
        end
      else roomCounts random rest (S index) bs n
  end.


(** The target, timer and number of draws after the re-targeting test of the
    chase branch far from the player, written out: a new target beside the
    current position (no vertical offset) and a timer of [2 + 2r] when the
    timer has run out or there is no target, the old ones otherwise. *)
Definition chaseFallback (random : nat -> R) (b : Bacteria) (timer : R)
    (n : nat) : Vec3 * R * nat :=
  let fresh :=
    (Vector3.add (b_position b)
       (Vector3.mk ((random n - 0.5) * 6) 0 ((random (S n) - 0.5) * 6)),
     2 + random (S (S n)) * 2, (n + 3)%nat) in
  match targetPosition b with
  | Some old => if Rle_dec timer 0 then fresh else (old, timer, n)
  | None => fresh
  end.

(** The elements of [l] whose index, counted from [i], is not in [marks]:
    what a mark-then-compact removal leaves. *)
Fixpoint keepUnmarked {A : Type} (marks : list nat) (i : nat) (l : list A)
  : list A :=
  match l with
  | [] => []
  | a :: rest =>
      if existsb (Nat.eqb i) marks then keepUnmarked marks (S i) rest
      else a :: keepUnmarked marks (S i) rest
  end.

(** Strictly decreasing lists of indices. *)
Fixpoint descending (l : list nat) : Prop :=
  match l with
  | [] => True
  | a :: rest => Forall (fun b => (b < a)%nat) rest /\ descending rest
  end.

(** What one projectile at [ppos] does to one bacterium. *)
Definition damage (ppos : Vec3) (b : Bacteria) : Bacteria :=
  if (b_health b <=? 0)%Z then b
  else if hits ppos b then setHealth b (b_health b - 1) else b.

(** The number of projectiles of [ps] (indexed from [pIndex]) that, once
    moved, are not expired and lie within the hit radius of [b]. *)
Fixpoint strikes (now : nat -> Z) (deltaTime : R) (pIndex : nat)
    (ps : list Projectile) (b : Bacteria) : Z :=
  match ps with
  | [] => 0%Z
  | p :: rest =>
      ((if negb (expired (now pIndex) (advance deltaTime p))
           && hits (p_position (advance deltaTime p)) b
        then 1 else 0)
       + strikes now deltaTime (S pIndex) rest b)%Z
  end.

(** The health of [b] after a pass in which [k] projectiles reached it. *)
Definition struck (k : Z) (b : Bacteria) : Bacteria :=
  if (b_health b <=? 0)%Z then b
  else setHealth b (Z.max 0 (b_health b - k)).

(** How many bacteria lost hit points between two snapshots of the list. *)
Fixpoint damagedCount (before after : list Bacteria) : nat :=
  match before, after with
  | b :: bs, a :: rest =>
      ((if (b_health a <? b_health b)%Z then 1 else 0) + damagedCount bs rest)%nat
  | _, _ => 0%nat
  end.

(** Two cells and two shots used in the scoring scenarios: a Streptococcus
    that has already been hit once and an E. coli, five units apart, each
    with a projectile that reaches it after a step of 0.016; and an E. coli
    far from both. *)
Definition strepCell : Bacteria :=
  mkBacteria (Vector3.mk 0 1.6 (-5)) streptococcus 1 Vector3.zero None 1.

Definition coliCell : Bacteria :=
  mkBacteria (Vector3.mk 5 1.6 (-5)) ecoli 1 Vector3.zero None 1.

Definition farCell : Bacteria :=
  mkBacteria (Vector3.mk 20 1.6 0) ecoli 1 Vector3.zero None 1.

Definition shotAtStrep : Projectile :=
  mkProjectile (Vector3.mk 0 1.6 (-4.6)) (Vector3.mk 0 0 (-1)) 25 0.

Definition shotAtColi : Projectile :=
  mkProjectile (Vector3.mk 5 1.6 (-4.6)) (Vector3.mk 0 0 (-1)) 25 1000.

(** The target, timer and number of draws after the re-targeting test of the
    wander branch, written out. *)
Definition wanderChoice (random : nat -> R) (b : Bacteria) (timer : R)
    (n : nat) : Vec3 * R * nat :=
  let fresh :=
    (Vector3.add (b_position b)
       (Vector3.mk ((random n - 0.5) * 6) ((random (S n) - 0.5) * 2)
                   ((random (S (S n)) - 0.5) * 6)),
     2 + random (S (S (S n))) * 2, (n + 4)%nat) in
  match targetPosition b with
  | Some old => if Rle_dec timer 0 then fresh else (old, timer, n)
  | None => fresh
  end.

(** The vertical band in which bacteria are kept. *)
Definition inBand (b : Bacteria) : Prop :=
  0.5 <= Vector3.y (b_position b) <= 5.

(** Two rooms whose floor plans share no point: some wall plane of one lies
    strictly beyond the opposite wall plane of the other. *)
Definition footprintsDisjoint (r1 r2 : Room) : Prop :=
  rightWall r1 < leftWall r2 \/ rightWall r2 < leftWall r1 \/
  backWall r1 < frontWall r2 \/ backWall r2 < frontWall r1.


(** The player as the handlers keep it: pitch within the clamp, eyes at
    height 1.6, [playerPositionRef] equal to the camera position. *)
Definition playerOk (pl : Player) : Prop :=
  - PI / 2 + 0.1 <= rot_x (pl_rotation pl) <= PI / 2 - 0.1 /\
  Vector3.y (pl_position pl) = 1.6 /\
  playerPositionRef pl = pl_position pl.

(** The books of a world balance: kills plus bacteria still listed make the
    total, and the score callback has been called once per kill. *)
Definition booksBalance (w : World) : Prop :=
  (bacteriaKilled (state w) + Z.of_nat (List.length (bacteriaRef w)) =
   totalBacteria (state w))%Z /\
  Z.of_nat (List.length (onScoreUpdate_calls (state w))) =
    bacteriaKilled (state w).

(** The projectiles of [ps] (indexed from [pIndex]) that have not expired,
    moved by one step. *)
Fixpoint liveAfter (now : nat -> Z) (deltaTime : R) (pIndex : nat)
    (ps : list Projectile) : list Projectile :=
  match ps with
  | [] => []
  | p :: rest =>
      if expired (now pIndex) (advance deltaTime p)
      then liveAfter now deltaTime (S pIndex) rest
      else advance deltaTime p :: liveAfter now deltaTime (S pIndex) rest
  end.

(** The real number that a finite binary64 value stands for: mantissa times
    a power of two.  Infinities and [NaN], which stand for no real number,
    are sent to 0. *)
Definition exact (f : PrimFloat.float) : R :=
  match FloatOps.Prim2SF f with
  | SpecFloat.S754_finite s m e =>
      let n := IZR (if s then Z.neg m else Z.pos m) in
      if (e <? 0)%Z then n / IZR (2 ^ (- e)) else n * IZR (2 ^ e)
  | _ => 0
  end.


(** * Properties *)

(** ** Vectors *)

Lemma lengthSq_nonneg (a : Vec3) : 0 <= Vector3.lengthSq a.
Proof. unfold Vector3.lengthSq. nra. Qed.

Lemma distanceToSquared_nonneg (a v : Vec3) : 0 <= Vector3.distanceToSquared a v.
Proof.
  unfold Vector3.distanceToSquared. cbv zeta.
  pose proof (Rle_0_sqr (Vector3.x a - Vector3.x v)).
  pose proof (Rle_0_sqr (Vector3.y a - Vector3.y v)).
  pose proof (Rle_0_sqr (Vector3.z a - Vector3.z v)).
  unfold Rsqr in *. lra.
Qed.

Lemma sqrt_lt_iff (s r : R) : 0 <= s -> 0 < r -> (sqrt s < r <-> s < r * r).
Proof.
  intros Hs Hr. pose proof (sqrt_sqrt s Hs) as Hq.
  pose proof (sqrt_pos s) as Hp. split; intro H.
  - nra.
  - destruct (Rlt_dec (sqrt s) r) as [Hlt | Hge]; [exact Hlt | nra].
Qed.

Lemma distanceTo_lt (a v : Vec3) (r : R) :
  0 < r ->
  (Vector3.distanceTo a v < r <-> Vector3.distanceToSquared a v < r * r).
Proof.
  intro Hr. unfold Vector3.distanceTo.
  apply sqrt_lt_iff; [apply distanceToSquared_nonneg | exact Hr].
Qed.

Lemma length_zero_iff (a : Vec3) :
  Vector3.length a = 0 <-> Vector3.lengthSq a = 0.
Proof.
  unfold Vector3.length. split.
  - intro H. apply sqrt_eq_0 in H; [exact H | apply lengthSq_nonneg].
  - intro H. rewrite H. apply sqrt_0.
Qed.

Lemma length_sq (a : Vec3) :
  Vector3.length a * Vector3.length a = Vector3.lengthSq a.
Proof. unfold Vector3.length. apply sqrt_sqrt, lengthSq_nonneg. Qed.



Lemma lengthSq_zero_coords (a : Vec3) :
  Vector3.lengthSq a = 0 -> a = Vector3.zero.
Proof.
  destruct a as [ax ay az]. unfold Vector3.lengthSq, Vector3.zero. simpl.
  intro H.
  assert (ax = 0) by nra. assert (ay = 0) by nra. assert (az = 0) by nra.
  subst. reflexivity.
Qed.

Lemma normalize_zero_length (a : Vec3) :
  Vector3.length a = 0 -> Vector3.normalize a = Vector3.zero.
Proof.
  intro H. unfold Vector3.normalize, Vector3.lengthOr1.
  destruct (Req_dec_T (Vector3.length a) 0) as [_ | Hne]; [| contradiction].
  apply length_zero_iff, lengthSq_zero_coords in H. subst a.
  unfold Vector3.divideScalar, Vector3.multiplyScalar, Vector3.zero. simpl.
  f_equal; lra.
Qed.

Lemma normalize_unit (a : Vec3) :
  Vector3.length a <> 0 -> Vector3.lengthSq (Vector3.normalize a) = 1.
Proof.
  intro H. unfold Vector3.normalize, Vector3.lengthOr1.
  destruct (Req_dec_T (Vector3.length a) 0) as [He | _]; [contradiction |].
  pose proof (length_sq a) as Hq.
  unfold Vector3.divideScalar, Vector3.multiplyScalar, Vector3.lengthSq in *.
  simpl. set (l := Vector3.length a) in *.
  field_simplify; [| exact H].
  replace (Vector3.x a ^ 2 + Vector3.y a ^ 2 + Vector3.z a ^ 2) with (l * l)
    by (rewrite Hq; ring).
  field. exact H.
Qed.




(** ** Level generation *)

(** C5.  A generated level has exactly five rooms: the spawn room at the
    origin, without bacteria, then four rooms at the fixed offsets, each with
    bacteria and with width in [10,16], height in [5,8] and depth in
    [10,16].  [generateLevel] is a total function: it returns such a list for
    every sequence of draws in [0,1). *)
Theorem generateLevel_rooms (random : nat -> R) (n : nat)
    (Hrandom : forall k, 0 <= random k < 1) :
  let rooms := fst (generateLevel random n) in
  List.length rooms = 5%nat /\
  map position rooms = Vector3.zero :: directions /\
  map hasBacteria rooms = [false; true; true; true; true] /\
  Forall roomInRange (tl rooms).
Proof.
  cbv zeta. unfold generateLevel, directions, pushRooms, peripheralRoom,
    bind, ret, Math_random. simpl.
  split; [reflexivity |]. split; [reflexivity |]. split; [reflexivity |].
  repeat apply Forall_cons; try apply Forall_nil;
    unfold roomInRange; simpl;
    repeat match goal with
    | |- context [random ?k] =>
        lazymatch goal with
        | H : _ <= random k < 1 |- _ => fail
        | _ => pose proof (Hrandom k)
        end
    end; lra.
Qed.

Lemma generateLevel_rooms_witness :
  let rooms := fst (generateLevel (fun _ => 0) 0%nat) in
  List.length rooms = 5%nat /\
  map position rooms = Vector3.zero :: directions /\
  map hasBacteria rooms = [false; true; true; true; true] /\
  Forall roomInRange (tl rooms).
Proof.
  apply (generateLevel_rooms (fun _ => 0) 0%nat). intro k. lra.
Defined.

(** ** Spawning *)

Section Spawning.

Variable random : nat -> R.
Hypothesis Hrandom : forall k, 0 <= random k < 1.

Lemma chooseTypeKey_spec (n : nat) :
  chooseTypeKey random n =
  (Some (if Rlt_dec (random n) 0.5 then "ecoli" else "streptococcus")%string,
   S n).
Proof.
  unfold chooseTypeKey, bind, ret, Math_random. simpl List.length.
  replace (INR 2) with 2 by (simpl; lra).
  pose proof (Hrandom n) as Hr.
  destruct (Rlt_dec (random n) 0.5) as [Hlt | Hge].
  - rewrite (Zfloor_eq 0) by (simpl; lra). reflexivity.
  - rewrite (Zfloor_eq 1) by (simpl; lra). reflexivity.
Qed.

Lemma spawnOne_spec (room : Room) (n : nat) :
2 <= width room -> 2 <= depth room ->
exists b n',
  spawnOne random room n = (Some b, n') /\
  b_type b = (if Rlt_dec (random n) 0.5 then ecoli else streptococcus) /\
  spawnedIn room b.
Proof.
intros Hw Hd. unfold spawnOne, bind. rewrite chooseTypeKey_spec.
destruct (Rlt_dec (random n) 0.5) as [Hlt | Hge]; simpl;
  unfold bind, ret, Math_random; simpl;
  eexists; eexists; (split; [reflexivity |]); (split; [reflexivity |]);
  unfold spawnedIn, freshlySpawned; simpl;
  repeat match goal with
  | |- context [random ?k] =>
      lazymatch goal with
      | H : _ <= random k < 1 |- _ => fail
      | _ => pose proof (Hrandom k)
      end
  end;
  (split; [auto |]); repeat split; nra.
Qed.

Lemma spawnOne_spawnedIn (room : Room) (n : nat) :
2 <= width room -> 2 <= depth room ->
exists b n', spawnOne random room n = (Some b, n') /\ spawnedIn room b.
Proof.
intros Hw Hd.
destruct (spawnOne_spec room n Hw Hd) as (b & n' & H1 & _ & H3).
exists b, n'. split; assumption.
Qed.

Lemma spawnOne_fresh (room : Room) (n : nat) :
  exists b n', spawnOne random room n = (Some b, n') /\ freshlySpawned b.
Proof.
  unfold spawnOne, bind. rewrite chooseTypeKey_spec.
  destruct (Rlt_dec (random n) 0.5); simpl;
    unfold bind, ret, Math_random; simpl;
    eexists; eexists; (split; [reflexivity |]);
    unfold freshlySpawned; simpl; auto.
Qed.

Lemma spawnLoop_spec (P : Bacteria -> Prop) (room : Room) (count : nat) :
  (forall n, exists b n', spawnOne random room n = (Some b, n') /\ P b) ->
  forall bs n, exists new n',
    spawnLoop random room count bs n = (Some (bs ++ new), n') /\
    List.length new = count /\ Forall P new.
Proof.
  intros Hone. induction count as [| c IH]; intros bs n.
  - exists [], n. simpl. unfold ret. rewrite app_nil_r. auto.
  - destruct (Hone n) as (b & n1 & Hb & HP).
    destruct (IH (bs ++ [b]) n1) as (new & n' & Hloop & Hlen & Hall).
    exists (b :: new), n'. simpl. unfold bind. rewrite Hb, Hloop.
    rewrite <- app_assoc. simpl. repeat split; auto.
Qed.

Lemma bacteriaCount_spec (n : nat) :
  (3 + Zfloor (random n * 3))%Z =
  if Rlt_dec (random n) (1 / 3) then 3%Z
  else if Rlt_dec (random n) (2 / 3) then 4%Z else 5%Z.
Proof.
  pose proof (Hrandom n) as Hr.
  destruct (Rlt_dec (random n) (1 / 3)) as [H1 | H1].
  - rewrite (Zfloor_eq 0) by (simpl; lra). reflexivity.
  - destruct (Rlt_dec (random n) (2 / 3)) as [H2 | H2].
    + rewrite (Zfloor_eq 1) by (simpl; lra). reflexivity.
    + rewrite (Zfloor_eq 2) by (simpl; lra). reflexivity.
Qed.

Lemma bacteriaCount_range (n : nat) :
  (3 <= 3 + Zfloor (random n * 3) <= 5)%Z.
Proof.
  rewrite bacteriaCount_spec.
  destruct (Rlt_dec (random n) (1 / 3));
    [| destruct (Rlt_dec (random n) (2 / 3))]; lia.
Qed.

Lemma spawnBacteriaInRoom_gen (P : Bacteria -> Prop) (room : Room)
    (roomIndex : nat) (bs : list Bacteria) (n : nat) :
  (forall k, exists b k', spawnOne random room k = (Some b, k') /\ P b) ->
  exists new n',
    spawnBacteriaInRoom random room roomIndex bs n =
      (Some ((3 + Zfloor (random n * 3))%Z, bs ++ new), n') /\
    Z.of_nat (List.length new) = (3 + Zfloor (random n * 3))%Z /\
    Forall P new.
Proof.
  intros Hone. pose proof (bacteriaCount_range n) as Hc.
  destruct (spawnLoop_spec P room (Z.to_nat (3 + Zfloor (random n * 3))) Hone
              bs (S n)) as (new & n' & Hloop & Hlen & Hall).
  exists new, n'. unfold spawnBacteriaInRoom, bind, ret, Math_random.
  rewrite Hloop. unfold option_map. repeat split; auto.
  rewrite Hlen. apply Z2Nat.id. lia.
Qed.

Lemma sumZ_cons (c : Z) (l : list Z) : sumZ (c :: l) = (c + sumZ l)%Z.
Proof. reflexivity. Qed.

Lemma spawnRooms_spec (rooms : list Room) :
  forall index total bs n,
  exists new n',
    spawnRooms random rooms index total bs n =
      (Some ((total + sumZ (roomCounts random rooms index bs n))%Z, bs ++ new),
       n') /\
    Z.of_nat (List.length new) = sumZ (roomCounts random rooms index bs n) /\
    Forall (fun c => (3 <= c <= 5)%Z) (roomCounts random rooms index bs n) /\
    List.length (roomCounts random rooms index bs n) =
      List.length (filter hasBacteria rooms) /\
    Forall freshlySpawned new.
Proof.
  induction rooms as [| room rest IH]; intros index total bs n.
  - exists [], n. simpl. unfold ret. rewrite app_nil_r, Z.add_0_r. auto.
  - cbn [spawnRooms roomCounts filter].
    destruct (hasBacteria room) eqn:Hflag.
    + destruct (spawnBacteriaInRoom_gen freshlySpawned room index bs n
                  (spawnOne_fresh room)) as (new1 & n1 & Hsp & Hlen1 & Hf1).
      destruct (IH (S index) (total + (3 + Zfloor (random n * 3)))%Z
                   (bs ++ new1) n1)
        as (new2 & n2 & Hrest & Hlen2 & Hr & Hl & Hf2).
      exists (new1 ++ new2), n2. unfold bind. rewrite Hsp. cbv beta iota.
      rewrite Hrest, app_assoc, sumZ_cons. repeat split.
      * do 3 f_equal. lia.
      * rewrite length_app, Nat2Z.inj_add. lia.
      * constructor; [apply bacteriaCount_range | exact Hr].
      * cbn [List.length]. f_equal. exact Hl.
      * apply Forall_app. split; assumption.
    + destruct (IH (S index) total bs n) as (new & n' & H). exists new, n'.
      exact H.
Qed.

End Spawning.

(** C6.  Under draws in [0,1), [spawnBacteriaInRoom] on a room at least two
    units wide and deep returns a count between 3 and 5 (one third of the
    draws for each), pushes exactly that many bacteria, each of the type
    picked by its own draw (E. coli below one half, Streptococcus from one
    half), horizontally within the room's extents less a margin of one unit
    and at a height between 1 and 3; and the total that the mount loop
    accumulates over any list of rooms is the sum of the counts returned for
    the flagged rooms, which is the number of bacteria pushed. *)
Theorem spawn_counts (random : nat -> R) (room : Room) (roomIndex : nat)
    (bs : list Bacteria) (n : nat)
    (rooms : list Room) (index : nat) (total : Z) (bs0 : list Bacteria)
    (n0 : nat)
    (Hrandom : forall k, 0 <= random k < 1)
    (Hw : 2 <= width room) (Hd : 2 <= depth room) :
  (exists count new n',
     spawnBacteriaInRoom random room roomIndex bs n =
       (Some (count, bs ++ new), n') /\
     (3 <= count <= 5)%Z /\
     count = (if Rlt_dec (random n) (1 / 3) then 3
              else if Rlt_dec (random n) (2 / 3) then 4 else 5)%Z /\
     Z.of_nat (List.length new) = count /\
     Forall (spawnedIn room) new) /\
  (forall k, exists b k',
     spawnOne random room k = (Some b, k') /\
     b_type b = (if Rlt_dec (random k) 0.5 then ecoli else streptococcus) /\
     spawnedIn room b) /\
  (exists new n',
     let counts := roomCounts random rooms index bs0 n0 in
     spawnRooms random rooms index total bs0 n0 =
       (Some ((total + sumZ counts)%Z, bs0 ++ new), n') /\
     Z.of_nat (List.length new) = sumZ counts /\
     Forall (fun c => (3 <= c <= 5)%Z) counts /\
     List.length counts = List.length (filter hasBacteria rooms)).
Proof.
  split; [| split].
  - destruct (spawnBacteriaInRoom_gen random Hrandom (spawnedIn room) room
                roomIndex bs n
                (fun k => spawnOne_spawnedIn random Hrandom room k Hw Hd))
      as (new & n' & Hsp & Hlen & Hall).
    exists (3 + Zfloor (random n * 3))%Z, new, n'.
    split; [exact Hsp |]. split; [apply bacteriaCount_range, Hrandom |].
    split; [apply bacteriaCount_spec, Hrandom |]. split; assumption.
  - intro k. apply (spawnOne_spec random Hrandom room k Hw Hd).
  - destruct (spawnRooms_spec random Hrandom rooms index total bs0 n0)
      as (new & n' & H1 & H2 & H3 & H4 & _).
    exists new, n'. cbv zeta. auto.
Qed.

Lemma spawn_counts_witness :
  exists count new n',
    spawnBacteriaInRoom (fun _ => 0)
      (mkRoom (Vector3.mk 0 0 (-20)) 10 5 10 true) 1 [] 0%nat =
      (Some (count, new), n') /\
    (3 <= count <= 5)%Z /\ Z.of_nat (List.length new) = count.
Proof.
  destruct (spawn_counts (fun _ => 0)
              (mkRoom (Vector3.mk 0 0 (-20)) 10 5 10 true) 1 [] 0%nat
              [spawnRoom] 0 0%Z [] 0%nat)
    as [(count & new & n' & Hsp & Hc & _ & Hlen & _) _].
  - intro k. lra.
  - simpl. lra.
  - simpl. lra.
  - exists count, new, n'. auto.
Defined.

(** ** Steering *)

Lemma steer_dead (random : nat -> R) (playerPos : Vec3) (deltaTime : R)
    (b : Bacteria) (n : nat) :
  (b_health b <= 0)%Z -> steer random playerPos deltaTime b n = (b, n).
Proof.
  intro H. unfold steer. apply Z.leb_le in H. rewrite H. reflexivity.
Qed.

Lemma steer_live (random : nat -> R) (playerPos : Vec3) (deltaTime : R)
    (b : Bacteria) (n : nat) :
  (0 < b_health b)%Z ->
  steer random playerPos deltaTime b n =
  let '(v, target, timer, n') :=
    steerVelocity random playerPos b (wanderTimer b - deltaTime) n in
  let p := Vector3.add (b_position b) (Vector3.multiplyScalar v deltaTime) in
  (mkBacteria (Vector3.setY p (Rmax 0.5 (Rmin 5 (Vector3.y p))))
              (b_type b) (b_health b) v target timer, n').
Proof.
  intro H. unfold steer. apply Z.leb_gt in H. rewrite H. unfold bind, ret.
  destruct (steerVelocity random playerPos b (wanderTimer b - deltaTime) n)
    as [[[v target] timer] n']. reflexivity.
Qed.

Lemma chaseRetarget_spec (random : nat -> R) (b : Bacteria) (timer : R)
    (n : nat) :
  chaseRetarget random b timer n =
  let '(target, timer', n') := chaseFallback random b timer n in
  (target, timer', n').
Proof.
  unfold chaseRetarget, chaseFallback.
  replace (n + 3)%nat with (S (S (S n))) by lia.
  destruct (targetPosition b) as [old |];
    [destruct (Rle_dec timer 0) |]; reflexivity.
Qed.

Lemma chaseFallback_fresh (random : nat -> R) (b : Bacteria) (timer : R)
    (n : nat) :
  (forall k, 0 <= random k < 1) ->
  targetPosition b = None \/ timer <= 0 ->
  let '(target, timer', k) := chaseFallback random b timer n in
  Rabs (Vector3.x target - Vector3.x (b_position b)) <= 3 /\
  Vector3.y target = Vector3.y (b_position b) /\
  Rabs (Vector3.z target - Vector3.z (b_position b)) <= 3 /\
  2 <= timer' <= 4 /\ k = (n + 3)%nat.
Proof.
  intros Hrandom Hcond.
  pose proof (Hrandom n). pose proof (Hrandom (S n)).
  pose proof (Hrandom (S (S n))).
  assert (Hfresh :
    Rabs (Vector3.x (b_position b) + (random n - 0.5) * 6
          - Vector3.x (b_position b)) <= 3 /\
    Vector3.y (b_position b) + 0 = Vector3.y (b_position b) /\
    Rabs (Vector3.z (b_position b) + (random (S n) - 0.5) * 6
          - Vector3.z (b_position b)) <= 3 /\
    2 <= 2 + random (S (S n)) * 2 <= 4 /\ (n + 3)%nat = (n + 3)%nat).
  { repeat split; try lra; apply Rabs_le; lra. }
  unfold chaseFallback. destruct (targetPosition b) as [old |].
  - destruct (Rle_dec timer 0) as [Hle | Hgt]; [exact Hfresh |].
    destruct Hcond as [Hc | Hc]; [discriminate | lra].
  - exact Hfresh.
Qed.

Lemma chaseFallback_keep (random : nat -> R) (b : Bacteria) (timer : R)
    (n : nat) (old : Vec3) :
  targetPosition b = Some old -> 0 < timer ->
  chaseFallback random b timer n = (old, timer, n).
Proof.
  intros Ht Hpos. unfold chaseFallback. rewrite Ht.
  destruct (Rle_dec timer 0); [lra | reflexivity].
Qed.

(** C7.  A live bacterium of a chase type whose distance to the player is
    strictly below 15 interpolates its velocity, with factor 0.05, toward the
    unit direction to the player times the type speed, and draws nothing;
    from 15 units on (so at 16 units) it interpolates, with factor 0.02,
    toward the unit direction to its wander target times half the type
    speed.  The target is the old one while the timer runs; when the timer
    has run out or no target is set, a new target is drawn within 3 units
    of the current position along each horizontal axis, at the same height,
    and the timer is reset to a value between 2 and 4. *)
Theorem chase_steering (random : nat -> R) (playerPos : Vec3) (deltaTime : R)
    (b : Bacteria) (n : nat)
    (Hrandom : forall k, 0 <= random k < 1)
    (Hlive : (0 < b_health b)%Z)
    (Hchase : behavior (b_type b) = chase) :
  let pos := b_position b in
  let timer := wanderTimer b - deltaTime in
  let b' := fst (steer random playerPos deltaTime b n) in
  let n' := snd (steer random playerPos deltaTime b n) in
  (Vector3.distanceTo pos playerPos < 15 ->
     velocity b' =
       Vector3.lerp (velocity b)
         (Vector3.multiplyScalar
            (Vector3.normalize (Vector3.sub playerPos pos))
            (speed (b_type b)))
         0.05 /\
     targetPosition b' = targetPosition b /\
     wanderTimer b' = timer /\ n' = n) /\
  (15 <= Vector3.distanceTo pos playerPos ->
     let '(target, timer', k) := chaseFallback random b timer n in
     velocity b' =
       Vector3.lerp (velocity b)
         (Vector3.multiplyScalar
            (Vector3.normalize (Vector3.sub target pos))
            (speed (b_type b) * 0.5))
         0.02 /\
     targetPosition b' = Some target /\
     wanderTimer b' = timer' /\ n' = k /\
     (targetPosition b = None \/ timer <= 0 ->
        Rabs (Vector3.x target - Vector3.x pos) <= 3 /\
        Vector3.y target = Vector3.y pos /\
        Rabs (Vector3.z target - Vector3.z pos) <= 3 /\
        2 <= timer' <= 4 /\ k = (n + 3)%nat) /\
     (forall old, targetPosition b = Some old -> 0 < timer ->
        target = old /\ timer' = timer /\ k = n)).
Proof.
  cbv zeta. rewrite (steer_live random playerPos deltaTime b n Hlive).
  unfold steerVelocity. rewrite Hchase.
  destruct (Rlt_dec (Vector3.distanceTo (b_position b) playerPos) 15)
    as [Hnear | Hfar].
  - split; [intros _ | intro; lra]. unfold ret. simpl. auto.
  - split; [intro; lra | intros _]. unfold bind, ret.
    rewrite chaseRetarget_spec.
    pose proof (chaseFallback_fresh random b (wanderTimer b - deltaTime) n
                  Hrandom) as Hf.
    pose proof (chaseFallback_keep random b (wanderTimer b - deltaTime) n)
      as Hk.
    destruct (chaseFallback random b (wanderTimer b - deltaTime) n)
      as [[target timer'] k].
    cbn [fst snd velocity targetPosition wanderTimer].
    repeat (split; [reflexivity |]). split; [exact Hf |].
    intros old Ho Ht. specialize (Hk old Ho Ht).
    injection Hk as -> -> ->. auto.
Qed.

Lemma chase_steering_witness :
  let b := mkBacteria (Vector3.mk 16 1.6 0) streptococcus 2 Vector3.zero
                      (Some (Vector3.mk 17 1.6 0)) 3 in
  velocity (fst (steer (fun _ => 0) (Vector3.mk 0 1.6 0) 0.016 b 0%nat)) =
  Vector3.lerp Vector3.zero
    (Vector3.multiplyScalar
       (Vector3.normalize
          (Vector3.sub (Vector3.mk 17 1.6 0) (Vector3.mk 16 1.6 0)))
       (3 * 0.5))
    0.02.
Proof.
  intro b.
  destruct (chase_steering (fun _ => 0) (Vector3.mk 0 1.6 0) 0.016 b 0%nat)
    as [_ Hfar].
  - intro k. lra.
  - simpl. lia.
  - reflexivity.
  - assert (Hd : 15 <= Vector3.distanceTo (b_position b) (Vector3.mk 0 1.6 0)).
    { destruct (Rlt_dec (Vector3.distanceTo (b_position b) (Vector3.mk 0 1.6 0))
                  15) as [Hlt | Hge]; [| lra].
      apply distanceTo_lt in Hlt; [| lra].
      unfold Vector3.distanceToSquared in Hlt. simpl in Hlt. lra. }
    specialize (Hfar Hd). unfold chaseFallback in Hfar.
    cbn [targetPosition b wanderTimer] in Hfar.
    destruct (Rle_dec (3 - 0.016) 0) as [Hle | _]; [lra |].
    destruct Hfar as [Hv _]. exact Hv.
Defined.




Lemma steer_keeps_health (random : nat -> R) (playerPos : Vec3)
    (deltaTime : R) (b : Bacteria) (n : nat) :
  b_health (fst (steer random playerPos deltaTime b n)) = b_health b /\
  b_type (fst (steer random playerPos deltaTime b n)) = b_type b.
Proof.
  destruct (Z_lt_le_dec 0 (b_health b)) as [Hlive | Hdead].
  - rewrite (steer_live _ _ _ _ _ Hlive).
    destruct (steerVelocity random playerPos b (wanderTimer b - deltaTime) n)
      as [[[v target] timer] n'].
    simpl. auto.
  - rewrite (steer_dead _ _ _ _ _ Hdead). auto.
Qed.

(** A property of single bacteria that steering preserves holds of the whole
    list after [updateBacteria]. *)
Lemma updateBacteria_Forall (P : Bacteria -> Prop) (random : nat -> R)
    (playerPos : Vec3) (deltaTime : R) :
  (forall b n, P b -> P (fst (steer random playerPos deltaTime b n))) ->
  forall bs n, Forall P bs ->
    Forall P (fst (updateBacteria random playerPos deltaTime bs n)).
Proof.
  intros Hstep. induction bs as [| b rest IH]; intros n Hall.
  - simpl. constructor.
  - inversion Hall as [| ? ? Hb Hrest]; subst.
    simpl. unfold bind, ret.
    specialize (Hstep b n Hb).
    destruct (steer random playerPos deltaTime b n) as [b' n1].
    specialize (IH n1 Hrest).
    destruct (updateBacteria random playerPos deltaTime rest n1) as [rest' n2].
    simpl in *. constructor; assumption.
Qed.

(** ** Removal of marked indices *)

Lemma splice1_out_of_range {A : Type} (l : list A) :
  forall i, nth_error l i = None -> splice1 i l = l.
Proof.
  induction l as [| a rest IH]; intros [| i] H; simpl in *;
    try reflexivity; try discriminate.
  f_equal. apply IH. exact H.
Qed.

Lemma keepUnmarked_all {A : Type} (marks : list nat) (l : list A) :
  forall i, Forall (fun j => (j < i)%nat) marks -> keepUnmarked marks i l = l.
Proof.
  induction l as [| a rest IH]; intros i Hm; simpl; [reflexivity |].
  assert (Hex : existsb (Nat.eqb i) marks = false).
  { apply not_true_is_false. intro Hc. apply existsb_exists in Hc.
    destruct Hc as (j & Hin & Heq). apply Nat.eqb_eq in Heq. subst j.
    rewrite Forall_forall in Hm. specialize (Hm i Hin). lia. }
  rewrite Hex. f_equal. apply IH.
  eapply Forall_impl; [| exact Hm]. simpl. intros; lia.
Qed.

Lemma keepUnmarked_splice1 {A : Type} (marks : list nat) (l : list A) :
  forall k i, Forall (fun j => (j < k + i)%nat) marks ->
    keepUnmarked marks k (splice1 i l) = keepUnmarked ((k + i)%nat :: marks) k l.
Proof.
  induction l as [| a rest IH]; intros k i Hm; [destruct i; reflexivity |].
  destruct i as [| i].
  - cbn [splice1 keepUnmarked existsb]. rewrite Nat.add_0_r in *.
    rewrite Nat.eqb_refl. cbn [orb].
    rewrite keepUnmarked_all by exact Hm.
    rewrite keepUnmarked_all; [reflexivity |].
    constructor; [lia |]. eapply Forall_impl; [| exact Hm]. simpl. intros; lia.
  - cbn [splice1 keepUnmarked existsb].
    replace (k =? k + S i)%nat with false
      by (symmetry; apply Nat.eqb_neq; lia).
    cbn [orb].
    replace (k + S i)%nat with (S k + i)%nat in * by lia.
    rewrite (IH (S k) i Hm). reflexivity.
Qed.

Lemma fold_splice1_descending {A : Type} (indices : list nat) :
  descending indices ->
  forall l : list A,
    fold_left (fun l index => splice1 index l) indices l =
    keepUnmarked indices 0 l.
Proof.
  induction indices as [| i rest IH]; intros Hd l.
  - simpl. symmetry. apply keepUnmarked_all. constructor.
  - destruct Hd as [Hlt Hd]. cbn [fold_left]. rewrite (IH Hd).
    apply (keepUnmarked_splice1 rest l 0 i). exact Hlt.
Qed.

Lemma keepUnmarked_ext {A : Type} (m1 m2 : list nat) (l : list A) :
  (forall j, In j m1 <-> In j m2) ->
  forall i, keepUnmarked m1 i l = keepUnmarked m2 i l.
Proof.
  intros Hm. induction l as [| a rest IH]; intro i; simpl; [reflexivity |].
  assert (He : existsb (Nat.eqb i) m1 = existsb (Nat.eqb i) m2).
  { apply eq_true_iff_eq. rewrite !existsb_exists.
    split; intros (j & Hin & Heq); exists j; (split; [apply Hm |]); assumption. }
  rewrite He, IH. reflexivity.
Qed.

Lemma keepUnmarked_Forall {A : Type} (P : A -> Prop) (marks : list nat)
    (l : list A) :
  Forall P l -> forall i, Forall P (keepUnmarked marks i l).
Proof.
  induction 1 as [| a rest Ha Hrest IH]; intro i; simpl; [constructor |].
  destruct (existsb (Nat.eqb i) marks); [apply IH |].
  constructor; [exact Ha | apply IH].
Qed.

Lemma In_insertDesc (a x : nat) (l : list nat) :
  In x (insertDesc a l) <-> x = a \/ In x l.
Proof.
  induction l as [| b rest IH]; simpl; [intuition |].
  destruct (b <=? a)%nat; simpl; rewrite ?IH; intuition.
Qed.

Lemma In_sortDesc (x : nat) (l : list nat) : In x (sortDesc l) <-> In x l.
Proof.
  induction l as [| a rest IH]; simpl; [reflexivity |].
  rewrite In_insertDesc, IH. intuition.
Qed.

Lemma insertDesc_descending (a : nat) (l : list nat) :
  descending l -> ~ In a l -> descending (insertDesc a l).
Proof.
  induction l as [| b rest IH]; intros Hd Hnin; simpl; [auto |].
  destruct Hd as [Hlt Hd].
  destruct (b <=? a)%nat eqn:Hba.
  - apply Nat.leb_le in Hba.
    assert (b < a)%nat by (simpl in Hnin; lia).
    simpl. split; [| split; assumption].
    constructor; [assumption |].
    eapply Forall_impl; [| exact Hlt]. simpl. intros; lia.
  - apply Nat.leb_gt in Hba. simpl. split.
    + apply Forall_forall. intros x Hx. apply In_insertDesc in Hx.
      destruct Hx as [-> | Hx]; [exact Hba |].
      rewrite Forall_forall in Hlt. apply Hlt, Hx.
    + apply IH; [exact Hd |]. simpl in Hnin. intuition.
Qed.

Lemma sortDesc_descending (l : list nat) : NoDup l -> descending (sortDesc l).
Proof.
  induction 1 as [| a rest Hnin Hnd IH]; simpl; [exact I |].
  apply insertDesc_descending; [exact IH |].
  rewrite In_sortDesc. exact Hnin.
Qed.

Lemma existsb_eqb_In (a : nat) (l : list nat) :
  existsb (Nat.eqb a) l = true <-> In a l.
Proof.
  rewrite existsb_exists. split.
  - intros (x & Hin & Heq). apply Nat.eqb_eq in Heq. subst. exact Hin.
  - intro Hin. exists a. split; [exact Hin | apply Nat.eqb_refl].
Qed.

Lemma In_dedupe (x : nat) (xs : list nat) :
  forall seen, In x (dedupe seen xs) <-> In x xs /\ ~ In x seen.
Proof.
  induction xs as [| a rest IH]; intro seen; simpl; [intuition |].
  destruct (existsb (Nat.eqb a) seen) eqn:He.
  - apply existsb_eqb_In in He. rewrite IH. split.
    + intuition.
    + intros [[-> | Hin] Hns]; [contradiction | auto].
  - assert (Hna : ~ In a seen).
    { intro Hc. apply existsb_eqb_In in Hc. congruence. }
    simpl. rewrite IH. simpl. split.
    + intros [-> | [Hin Hns]]; [auto |]. split; [auto |]. intuition.
    + intros [[-> | Hin] Hns]; [auto |].
      destruct (Nat.eq_dec a x) as [-> | Hne]; [auto |]. right.
      split; [exact Hin |]. intros [Hc | Hc]; [congruence | contradiction].
Qed.

Lemma NoDup_dedupe (xs : list nat) : forall seen, NoDup (dedupe seen xs).
Proof.
  induction xs as [| a rest IH]; intro seen; simpl; [constructor |].
  destruct (existsb (Nat.eqb a) seen); [apply IH |].
  constructor; [| apply IH].
  rewrite In_dedupe. simpl. intuition.
Qed.

Lemma In_uniqueDesc (x : nat) (xs : list nat) :
  In x (uniqueDesc xs) <-> In x xs.
Proof.
  unfold uniqueDesc. rewrite In_sortDesc, In_dedupe. simpl. intuition.
Qed.

Lemma uniqueDesc_descending (xs : list nat) : descending (uniqueDesc xs).
Proof. apply sortDesc_descending, NoDup_dedupe. Qed.

(** Removing the unique marks in descending order removes exactly the
    marked projectiles. *)
Lemma removeProjectiles_keepUnmarked (marks : list nat) (ps : list Projectile) :
  removeProjectiles (uniqueDesc marks) ps = keepUnmarked marks 0 ps.
Proof.
  unfold removeProjectiles.
  rewrite <- (keepUnmarked_ext (uniqueDesc marks) marks ps (fun j => In_uniqueDesc j marks)).
  rewrite <- (fold_splice1_descending _ (uniqueDesc_descending marks)).
  generalize (uniqueDesc marks) as indices. intro indices. revert ps.
  induction indices as [| i rest IH]; intro ps; [reflexivity |].
  cbn [fold_left]. destruct (nth_error ps i) eqn:Hn.
  - apply IH.
  - rewrite (splice1_out_of_range ps i Hn). apply IH.
Qed.

Lemma removeBacteria_fst (cap : Captured) (indices : list nat) :
  forall bs st,
    fst (removeBacteria cap indices bs st) =
    fold_left (fun l index => splice1 index l) indices bs.
Proof.
  unfold removeBacteria.
  induction indices as [| i rest IH]; intros bs st; [reflexivity |].
  cbn [fold_left]. destruct (nth_error bs i) eqn:Hn.
  - apply IH.
  - rewrite (splice1_out_of_range bs i Hn). apply IH.
Qed.

Lemma removeBacteria_keepUnmarked (cap : Captured) (marks : list nat)
    (bs : list Bacteria) (st : GameState) :
  fst (removeBacteria cap (uniqueDesc marks) bs st) = keepUnmarked marks 0 bs.
Proof.
  rewrite removeBacteria_fst.
  rewrite (fold_splice1_descending _ (uniqueDesc_descending marks)).
  apply keepUnmarked_ext. intro j. apply In_uniqueDesc.
Qed.

(** ** Collisions *)

Lemma hits_iff (ppos : Vec3) (b : Bacteria) :
  hits ppos b = true <->
  Vector3.distanceToSquared ppos (b_position b) < 0.36.
Proof.
  unfold hits.
  destruct (Rlt_dec (Vector3.distanceTo ppos (b_position b)) 0.6) as [H | H].
  - apply distanceTo_lt in H; [| lra]. split; [intros _; lra | reflexivity].
  - split; [discriminate |]. intro Hc. exfalso. apply H.
    apply distanceTo_lt; lra.
Qed.

Lemma hits_setHealth (ppos : Vec3) (b : Bacteria) (h : Z) :
  hits ppos (setHealth b h) = hits ppos b.
Proof. reflexivity. Qed.

Lemma setHealth_same (b : Bacteria) : setHealth b (b_health b) = b.
Proof. destruct b. reflexivity. Qed.

Lemma collide_bacteria (ppos : Vec3) (pIndex bIndex : nat) (b : Bacteria)
    (m : Marks) :
  fst (collide ppos pIndex bIndex b m) = damage ppos b.
Proof.
  unfold collide, damage. destruct (b_health b <=? 0)%Z; [reflexivity |].
  destruct (hits ppos b); reflexivity.
Qed.

Lemma collide_dead (ppos : Vec3) (pIndex bIndex : nat) (b : Bacteria)
    (m : Marks) :
  (b_health b <= 0)%Z -> collide ppos pIndex bIndex b m = (b, m).
Proof. intro H. unfold collide. apply Z.leb_le in H. rewrite H. reflexivity. Qed.

Lemma collide_marks_projectile (ppos : Vec3) (pIndex bIndex : nat)
    (b : Bacteria) (m : Marks) :
  projectilesToRemove (snd (collide ppos pIndex bIndex b m)) =
  projectilesToRemove m ++
  (if (0 <? b_health b)%Z && hits ppos b then [pIndex] else []).
Proof.
  unfold collide. rewrite Z.ltb_antisym.
  destruct (b_health b <=? 0)%Z; simpl; [symmetry; apply app_nil_r |].
  destruct (hits ppos b); simpl; [reflexivity | symmetry; apply app_nil_r].
Qed.

Lemma checkCollisions_bacteria (ppos : Vec3) (pIndex : nat)
    (bs : list Bacteria) :
  forall bIndex m,
    fst (checkCollisions ppos pIndex bIndex bs m) = map (damage ppos) bs.
Proof.
  induction bs as [| b rest IH]; intros bIndex m; [reflexivity |].
  cbn [checkCollisions map].
  pose proof (collide_bacteria ppos pIndex bIndex b m) as Hb.
  destruct (collide ppos pIndex bIndex b m) as [b' m1].
  specialize (IH (S bIndex) m1).
  destruct (checkCollisions ppos pIndex (S bIndex) rest m1) as [rest' m2].
  simpl in *. congruence.
Qed.

(** The marks of one inner loop: [pIndex] is pushed once for every live
    bacterium within the radius. *)
Lemma checkCollisions_marks_projectile (ppos : Vec3) (pIndex : nat)
    (bs : list Bacteria) :
  forall bIndex m,
    projectilesToRemove (snd (checkCollisions ppos pIndex bIndex bs m)) =
    projectilesToRemove m ++
    repeat pIndex
      (List.length
         (filter (fun b => (0 <? b_health b)%Z && hits ppos b) bs)).
Proof.
  induction bs as [| b rest IH]; intros bIndex m.
  - simpl. symmetry; apply app_nil_r.
  - cbn [checkCollisions filter].
    pose proof (collide_marks_projectile ppos pIndex bIndex b m) as Hm.
    destruct (collide ppos pIndex bIndex b m) as [b' m1].
    specialize (IH (S bIndex) m1).
    destruct (checkCollisions ppos pIndex (S bIndex) rest m1) as [rest' m2].
    simpl in *. rewrite IH, Hm.
    destruct ((0 <? b_health b)%Z && hits ppos b); simpl.
    + rewrite <- app_assoc. reflexivity.
    + rewrite app_nil_r. reflexivity.
Qed.

Lemma strikes_nonneg (now : nat -> Z) (deltaTime : R) (ps : list Projectile)
    (b : Bacteria) :
  forall pIndex, (0 <= strikes now deltaTime pIndex ps b)%Z.
Proof.
  induction ps as [| p rest IH]; intro pIndex; cbn [strikes]; [lia |].
  specialize (IH (S pIndex)).
  destruct (negb (expired (now pIndex) (advance deltaTime p))
            && hits (p_position (advance deltaTime p)) b); lia.
Qed.

Lemma strikes_setHealth (now : nat -> Z) (deltaTime : R)
    (ps : list Projectile) (b : Bacteria) (h : Z) :
  forall pIndex,
    strikes now deltaTime pIndex ps (setHealth b h) =
    strikes now deltaTime pIndex ps b.
Proof.
  induction ps as [| p rest IH]; intro pIndex; cbn [strikes]; [reflexivity |].
  rewrite IH. reflexivity.
Qed.

Lemma strikes_damage (now : nat -> Z) (deltaTime : R)
    (ps : list Projectile) (ppos : Vec3) (b : Bacteria) (pIndex : nat) :
  strikes now deltaTime pIndex ps (damage ppos b) =
  strikes now deltaTime pIndex ps b.
Proof.
  unfold damage. destruct (b_health b <=? 0)%Z; [reflexivity |].
  destruct (hits ppos b); [apply strikes_setHealth | reflexivity].
Qed.

Lemma setHealth_setHealth (b : Bacteria) (h1 h2 : Z) :
  setHealth (setHealth b h1) h2 = setHealth b h2.
Proof. reflexivity. Qed.

Lemma struck_damage (ppos : Vec3) (k : Z) (b : Bacteria) :
  (0 <= k)%Z ->
  struck k (damage ppos b) = struck ((if hits ppos b then 1 else 0) + k) b.
Proof.
  intro Hk. unfold struck, damage.
  destruct (b_health b <=? 0)%Z eqn:Hdead; [rewrite Hdead; reflexivity |].
  apply Z.leb_gt in Hdead.
  destruct (hits ppos b).
  - cbn [setHealth b_health].
    destruct (b_health b - 1 <=? 0)%Z eqn:H1.
    + apply Z.leb_le in H1. f_equal. lia.
    + apply Z.leb_gt in H1. rewrite setHealth_setHealth. f_equal. lia.
  - apply Z.leb_gt in Hdead. rewrite Hdead. reflexivity.
Qed.

Lemma handleProjectile_bacteria (now : Z) (pIndex : nat) (moved : Projectile)
    (bs : list Bacteria) (m : Marks) :
  fst (handleProjectile now pIndex moved bs m) =
  if expired now moved then bs else map (damage (p_position moved)) bs.
Proof.
  unfold handleProjectile. destruct (expired now moved); [reflexivity |].
  apply checkCollisions_bacteria.
Qed.

(** The bacteria after the two nested loops of a pass. *)
Lemma moveAndCollide_bacteria (now : nat -> Z) (deltaTime : R)
    (ps : list Projectile) :
  forall pIndex bs m,
    snd (fst (moveAndCollide now deltaTime pIndex ps bs m)) =
    map (fun b => struck (strikes now deltaTime pIndex ps b) b) bs.
Proof.
  induction ps as [| p rest IH]; intros pIndex bs m.
  - simpl. rewrite <- (map_id bs) at 1. apply map_ext. intro b.
    unfold struck. destruct (b_health b <=? 0)%Z eqn:Hd; [reflexivity |].
    apply Z.leb_gt in Hd. rewrite Z.sub_0_r, Z.max_r by lia.
    symmetry. apply setHealth_same.
  - cbn [moveAndCollide strikes].
    pose proof (handleProjectile_bacteria (now pIndex) pIndex
                  (advance deltaTime p) bs m) as Hh.
    destruct (handleProjectile (now pIndex) pIndex (advance deltaTime p) bs m)
      as [bs1 m1].
    specialize (IH (S pIndex) bs1 m1).
    destruct (moveAndCollide now deltaTime (S pIndex) rest bs1 m1)
      as [[rest' bs2] m2].
    cbn [fst snd] in *. rewrite IH, Hh.
    destruct (expired (now pIndex) (advance deltaTime p)); cbn [negb andb].
    + apply map_ext. intro b. rewrite Z.add_0_l. reflexivity.
    + rewrite map_map. apply map_ext. intro b.
      rewrite strikes_damage.
      apply struck_damage, strikes_nonneg.
Qed.

Lemma moveAndCollide_projectiles (now : nat -> Z) (deltaTime : R)
    (ps : list Projectile) :
  forall pIndex bs m,
    fst (fst (moveAndCollide now deltaTime pIndex ps bs m)) =
    map (advance deltaTime) ps.
Proof.
  induction ps as [| p rest IH]; intros pIndex bs m; [reflexivity |].
  cbn [moveAndCollide map].
  destruct (handleProjectile (now pIndex) pIndex (advance deltaTime p) bs m)
    as [bs1 m1].
  specialize (IH (S pIndex) bs1 m1).
  destruct (moveAndCollide now deltaTime (S pIndex) rest bs1 m1)
    as [[rest' bs2] m2].
  cbn [fst snd] in *. congruence.
Qed.

Lemma updateProjectiles_projectiles (cap : Captured) (now : nat -> Z)
    (deltaTime : R) (ps : list Projectile) (bs : list Bacteria)
    (st : GameState) :
  fst (fst (updateProjectiles cap now deltaTime ps bs st)) =
  keepUnmarked
    (projectilesToRemove
       (snd (moveAndCollide now deltaTime 0 ps bs (mkMarks [] []))))
    0 (map (advance deltaTime) ps).
Proof.
  unfold updateProjectiles.
  pose proof (moveAndCollide_projectiles now deltaTime ps 0 bs (mkMarks [] []))
    as Hps.
  destruct (moveAndCollide now deltaTime 0 ps bs (mkMarks [] []))
    as [[ps1 bs1] m].
  destruct (removeBacteria cap (uniqueDesc (bacteriaToRemove m)) bs1 st)
    as [bs2 st2].
  cbn [fst snd] in *. subst ps1. apply removeProjectiles_keepUnmarked.
Qed.

Lemma updateProjectiles_bacteria (cap : Captured) (now : nat -> Z)
    (deltaTime : R) (ps : list Projectile) (bs : list Bacteria)
    (st : GameState) :
  snd (fst (updateProjectiles cap now deltaTime ps bs st)) =
  keepUnmarked
    (bacteriaToRemove
       (snd (moveAndCollide now deltaTime 0 ps bs (mkMarks [] []))))
    0 (map (fun b => struck (strikes now deltaTime 0 ps b) b) bs).
Proof.
  unfold updateProjectiles.
  pose proof (moveAndCollide_bacteria now deltaTime ps 0 bs (mkMarks [] []))
    as Hbs.
  destruct (moveAndCollide now deltaTime 0 ps bs (mkMarks [] []))
    as [[ps1 bs1] m].
  pose proof (removeBacteria_keepUnmarked cap (bacteriaToRemove m) bs1 st)
    as Hrm.
  destruct (removeBacteria cap (uniqueDesc (bacteriaToRemove m)) bs1 st)
    as [bs2 st2].
  cbn [fst snd] in *. subst bs1. exact Hrm.
Qed.

(** C1, as the code has it.  In the inner loop of a pass a projectile takes
    one hit point from every live bacterium closer than 0.6, not only from
    the first one, and pushes its index once per hit; over the whole pass
    each bacterium loses one hit point for every unexpired projectile that
    reaches it, down to 0; and the projectiles left after the pass are those
    whose index was not marked, so a projectile that hit is removed once. *)
Theorem projectile_hits_all_in_range (cap : Captured) (now : nat -> Z)
    (deltaTime : R) (ps : list Projectile) (bs : list Bacteria)
    (st : GameState) (ppos : Vec3) (pIndex bIndex : nat) (m : Marks) :
  fst (checkCollisions ppos pIndex bIndex bs m) = map (damage ppos) bs /\
  projectilesToRemove (snd (checkCollisions ppos pIndex bIndex bs m)) =
    projectilesToRemove m ++
    repeat pIndex
      (List.length (filter (fun b => (0 <? b_health b)%Z && hits ppos b) bs)) /\
  snd (fst (moveAndCollide now deltaTime 0 ps bs (mkMarks [] []))) =
    map (fun b => struck (strikes now deltaTime 0 ps b) b) bs /\
  fst (fst (updateProjectiles cap now deltaTime ps bs st)) =
    keepUnmarked
      (projectilesToRemove
         (snd (moveAndCollide now deltaTime 0 ps bs (mkMarks [] []))))
      0 (map (advance deltaTime) ps).
Proof.
  split; [apply checkCollisions_bacteria |].
  split; [apply checkCollisions_marks_projectile |].
  split; [apply moveAndCollide_bacteria |].
  apply updateProjectiles_projectiles.
Qed.

(** C1 as stated fails: one projectile between two Streptococcus cells, each
    0.3 away from it, damages both in a single inner loop. *)
Lemma projectile_damages_two :
  ~ (forall ppos pIndex bs m,
       (damagedCount bs (fst (checkCollisions ppos pIndex 0 bs m)) <= 1)%nat).
Proof.
  intro H.
  specialize (H (Vector3.mk 0 0 0) 0%nat
                [ mkBacteria (Vector3.mk 0.3 0 0) streptococcus 2
                             Vector3.zero None 0;
                  mkBacteria (Vector3.mk (-0.3) 0 0) streptococcus 2
                             Vector3.zero None 0 ]
                (mkMarks [] [])).
  rewrite checkCollisions_bacteria in H.
  assert (H1 : hits (Vector3.mk 0 0 0)
                 (mkBacteria (Vector3.mk 0.3 0 0) streptococcus 2
                             Vector3.zero None 0) = true).
  { apply hits_iff. unfold Vector3.distanceToSquared. simpl. lra. }
  assert (H2 : hits (Vector3.mk 0 0 0)
                 (mkBacteria (Vector3.mk (-0.3) 0 0) streptococcus 2
                             Vector3.zero None 0) = true).
  { apply hits_iff. unfold Vector3.distanceToSquared. simpl. lra. }
  unfold damage in H. cbn [map b_health Z.leb Z.compare] in H.
  rewrite H1, H2 in H. simpl in H. lia.
Qed.

(** ** Projectile lifetime *)

Lemma expired_iff (now : Z) (deltaTime : R) (p : Projectile) :
  expired now (advance deltaTime p) = true <-> (3000 < now - createdAt p)%Z.
Proof. unfold expired, advance. simpl. rewrite Z.gtb_ltb, Z.ltb_lt. reflexivity. Qed.

Lemma handleProjectile_expired (now : Z) (pIndex : nat) (moved : Projectile)
    (bs : list Bacteria) (m : Marks) :
  expired now moved = true ->
  handleProjectile now pIndex moved bs m =
  (bs, mkMarks (projectilesToRemove m ++ [pIndex]) (bacteriaToRemove m)).
Proof. intro H. unfold handleProjectile. rewrite H. reflexivity. Qed.

Lemma handleProjectile_live (now : Z) (pIndex : nat) (moved : Projectile)
    (bs : list Bacteria) (m : Marks) :
  expired now moved = false ->
  handleProjectile now pIndex moved bs m =
  checkCollisions (p_position moved) pIndex 0 bs m.
Proof. intro H. unfold handleProjectile. rewrite H. reflexivity. Qed.

Lemma filter_nonempty_Exists {A : Type} (f : A -> bool) (l : list A) :
  (0 < List.length (filter f l))%nat -> Exists (fun a => f a = true) l.
Proof.
  induction l as [| a rest IH]; simpl; [lia |].
  destruct (f a) eqn:Ha; [intros _; left; exact Ha | intro H; right; auto].
Qed.

Lemma In_repeat_iff (j a k : nat) : In j (repeat a k) <-> j = a /\ (0 < k)%nat.
Proof.
  induction k as [| k IH]; simpl; [intuition lia |].
  rewrite IH. intuition lia.
Qed.

Lemma handleProjectile_marks (now : Z) (pIndex : nat) (moved : Projectile)
    (bs : list Bacteria) (m : Marks) (j : nat) :
  In j (projectilesToRemove (snd (handleProjectile now pIndex moved bs m))) <->
  In j (projectilesToRemove m) \/
  (j = pIndex /\
   (expired now moved = true \/
    (expired now moved = false /\
     Exists (fun b => (0 <? b_health b)%Z && hits (p_position moved) b = true)
            bs))).
Proof.
  unfold handleProjectile. destruct (expired now moved) eqn:He.
  - cbn [snd projectilesToRemove]. rewrite in_app_iff. simpl. intuition.
  - rewrite checkCollisions_marks_projectile, in_app_iff, In_repeat_iff.
    split.
    + intros [H | [-> Hk]]; [auto |]. right. split; [reflexivity |]. right.
      split; [reflexivity |]. apply filter_nonempty_Exists in Hk. exact Hk.
    + intros [H | [-> [Hc | [_ Hex]]]]; [auto | discriminate |].
      right. split; [reflexivity |].
      induction Hex as [b rest Hb | b rest _ IH]; simpl.
      * rewrite Hb. simpl. lia.
      * destruct ((0 <? b_health b)%Z && hits (p_position moved) b); simpl; lia.
Qed.

Lemma hits_damage (ppos qpos : Vec3) (b : Bacteria) :
  hits ppos (damage qpos b) = hits ppos b.
Proof.
  unfold damage. destruct (b_health b <=? 0)%Z; [reflexivity |].
  destruct (hits qpos b); reflexivity.
Qed.

Lemma handleProjectile_keeps_hits (now : Z) (pIndex : nat) (moved : Projectile)
    (bs : list Bacteria) (m : Marks) (ppos : Vec3) :
  Exists (fun b => hits ppos b = true)
         (fst (handleProjectile now pIndex moved bs m)) ->
  Exists (fun b => hits ppos b = true) bs.
Proof.
  rewrite handleProjectile_bacteria. destruct (expired now moved); [auto |].
  rewrite Exists_map. apply Exists_impl. intro b. rewrite hits_damage. auto.
Qed.

(** Every mark pushed during the pass belongs to a projectile that had
    expired or lay within the radius of some bacterium. *)
Lemma moveAndCollide_marks_sound (now : nat -> Z) (deltaTime : R)
    (ps : list Projectile) :
  forall pIndex bs m j,
    In j (projectilesToRemove
            (snd (moveAndCollide now deltaTime pIndex ps bs m))) ->
    In j (projectilesToRemove m) \/
    exists i p,
      j = (pIndex + i)%nat /\ nth_error ps i = Some p /\
      (expired (now j) (advance deltaTime p) = true \/
       Exists (fun b => hits (p_position (advance deltaTime p)) b = true) bs).
Proof.
  induction ps as [| p rest IH]; intros pIndex bs m j Hin; [left; exact Hin |].
  cbn [moveAndCollide] in Hin.
  pose proof (handleProjectile_marks (now pIndex) pIndex (advance deltaTime p)
                bs m j) as Hm.
  pose proof (handleProjectile_keeps_hits (now pIndex) pIndex
                (advance deltaTime p) bs m) as Hk.
  destruct (handleProjectile (now pIndex) pIndex (advance deltaTime p) bs m)
    as [bs1 m1].
  specialize (IH (S pIndex) bs1 m1 j).
  destruct (moveAndCollide now deltaTime (S pIndex) rest bs1 m1)
    as [[rest' bs2] m2].
  cbn [fst snd] in *.
  destruct (IH Hin) as [H1 | (i & q & Hj & Hn & Hc)].
  - apply Hm in H1. destruct H1 as [H1 | [-> Hc]]; [left; exact H1 |].
    right. exists 0%nat, p. split; [lia |]. split; [reflexivity |].
    destruct Hc as [Hc | [_ Hex]]; [left; exact Hc |]. right.
    eapply Exists_impl; [| exact Hex]. simpl. intros b Hb.
    apply andb_true_iff in Hb. tauto.
  - right. exists (S i), q. split; [lia |]. split; [exact Hn |].
    destruct Hc as [Hc | Hex]; [left; exact Hc | right; apply Hk; exact Hex].
Qed.

Lemma moveAndCollide_marks_mono (now : nat -> Z) (deltaTime : R)
    (ps : list Projectile) :
  forall pIndex bs m j,
    In j (projectilesToRemove m) ->
    In j (projectilesToRemove
            (snd (moveAndCollide now deltaTime pIndex ps bs m))).
Proof.
  induction ps as [| p rest IH]; intros pIndex bs m j Hin; [exact Hin |].
  cbn [moveAndCollide].
  pose proof (handleProjectile_marks (now pIndex) pIndex (advance deltaTime p)
                bs m j) as Hm.
  destruct (handleProjectile (now pIndex) pIndex (advance deltaTime p) bs m)
    as [bs1 m1].
  specialize (IH (S pIndex) bs1 m1 j).
  destruct (moveAndCollide now deltaTime (S pIndex) rest bs1 m1)
    as [[rest' bs2] m2].
  cbn [fst snd] in *. apply IH, Hm. left. exact Hin.
Qed.

Lemma moveAndCollide_marks_expired (now : nat -> Z) (deltaTime : R)
    (ps : list Projectile) :
  forall pIndex bs m i p,
    nth_error ps i = Some p ->
    expired (now (pIndex + i)%nat) (advance deltaTime p) = true ->
    In (pIndex + i)%nat
       (projectilesToRemove
          (snd (moveAndCollide now deltaTime pIndex ps bs m))).
Proof.
  induction ps as [| q rest IH]; intros pIndex bs m i p Hn He;
    [destruct i; discriminate |].
  cbn [moveAndCollide].
  pose proof (handleProjectile_marks (now pIndex) pIndex (advance deltaTime q)
                bs m pIndex) as Hm.
  destruct (handleProjectile (now pIndex) pIndex (advance deltaTime q) bs m)
    as [bs1 m1] eqn:Hh.
  destruct i as [| i].
  - simpl in Hn. injection Hn as ->. rewrite Nat.add_0_r in *.
    pose proof (moveAndCollide_marks_mono now deltaTime rest (S pIndex) bs1 m1
                  pIndex) as Hmono.
    destruct (moveAndCollide now deltaTime (S pIndex) rest bs1 m1)
      as [[rest' bs2] m2].
    cbn [fst snd] in *. apply Hmono, Hm. right. auto.
  - simpl in Hn. specialize (IH (S pIndex) bs1 m1 i p Hn).
    replace (S pIndex + i)%nat with (pIndex + S i)%nat in IH by lia.
    specialize (IH He).
    destruct (moveAndCollide now deltaTime (S pIndex) rest bs1 m1)
      as [[rest' bs2] m2].
    cbn [fst snd] in *. exact IH.
Qed.

Lemma shoot_projectile (camera : Camera) (now : Z) (ps : list Projectile) :
  exists q,
    shoot camera now ps = ps ++ [q] /\
    p_position q = cam_position camera /\
    direction q = applyQuaternion (Vector3.mk 0 0 (-1)) (quaternion camera) /\
    p_speed q = 25 /\ createdAt q = now.
Proof. unfold shoot. eexists. repeat split. Qed.

(** C8, as the code has it.  A projectile moves by its direction times its
    speed (25 for every projectile that [shoot] creates) times the time
    step.  In a pass at which its age is at most 3000 ms, exactly 3000
    included, it is tested against the bacteria, and if none is within its
    radius it stays in the list; in a pass at which its age is strictly more
    than 3000 ms it is marked before any collision test, leaves every
    bacterium as it is, and is removed by the end of the pass. *)
Theorem projectile_lifetime (cap : Captured) (now : nat -> Z) (deltaTime : R)
    (ps : list Projectile) (bs : list Bacteria) (st : GameState)
    (i : nat) (p : Projectile)
    (Hp : nth_error ps i = Some p) :
  let moved := advance deltaTime p in
  let marks :=
    projectilesToRemove
      (snd (moveAndCollide now deltaTime 0 ps bs (mkMarks [] []))) in
  p_position moved =
    Vector3.add (p_position p)
      (Vector3.multiplyScalar (direction p) (p_speed p * deltaTime)) /\
  (forall camera t ps0, exists q,
      shoot camera t ps0 = ps0 ++ [q] /\ p_speed q = 25 /\ createdAt q = t) /\
  fst (fst (updateProjectiles cap now deltaTime ps bs st)) =
    keepUnmarked marks 0 (map (advance deltaTime) ps) /\
  ((now i - createdAt p <= 3000)%Z ->
     (forall bs0 m0,
        handleProjectile (now i) i moved bs0 m0 =
        checkCollisions (p_position moved) i 0 bs0 m0) /\
     (Forall (fun b => hits (p_position moved) b = false) bs ->
      ~ In i marks)) /\
  ((3000 < now i - createdAt p)%Z ->
     (forall bs0 m0,
        handleProjectile (now i) i moved bs0 m0 =
        (bs0, mkMarks (projectilesToRemove m0 ++ [i]) (bacteriaToRemove m0))) /\
     In i marks).
Proof.
  cbv zeta. split; [reflexivity |].
  split.
  { intros camera t ps0.
    destruct (shoot_projectile camera t ps0) as (q & H1 & _ & _ & H2 & H3).
    exists q. auto. }
  split; [apply updateProjectiles_projectiles |].
  split.
  - intro Hage.
    assert (He : expired (now i) (advance deltaTime p) = false).
    { apply not_true_is_false. rewrite expired_iff. lia. }
    split; [intros bs0 m0; apply handleProjectile_live, He |].
    intros Hmiss Hin.
    apply moveAndCollide_marks_sound in Hin.
    destruct Hin as [[] | (k & q & Hk & Hn & Hc)].
    simpl in Hk. subst k. rewrite Hp in Hn. injection Hn as <-.
    destruct Hc as [Hc | Hex]; [congruence |].
    apply Exists_exists in Hex. destruct Hex as (b & Hb & Hhit).
    rewrite Forall_forall in Hmiss. specialize (Hmiss b Hb). congruence.
  - intro Hage.
    assert (He : expired (now i) (advance deltaTime p) = true)
      by (apply expired_iff; exact Hage).
    split; [intros bs0 m0; apply handleProjectile_expired, He |].
    apply (moveAndCollide_marks_expired now deltaTime ps 0 bs (mkMarks [] [])
             i p Hp He).
Qed.

Lemma projectile_lifetime_witness :
  let p := mkProjectile (Vector3.mk 0 1.6 0) (Vector3.mk 0 0 (-1)) 25 0 in
  ~ In 0%nat
      (projectilesToRemove
         (snd (moveAndCollide (fun _ => 2900%Z) 0.1 0 [p] [] (mkMarks [] [])))).
Proof.
  intro p.
  destruct (projectile_lifetime mountClosure (fun _ => 2900%Z) 0.1 [p] []
              initialState 0 p eq_refl) as (_ & _ & _ & Hlive & _).
  apply Hlive.
  - simpl. lia.
  - constructor.
Defined.

(** C8 as stated fails at the boundary: in a pass that runs exactly 3000 ms
    after its creation a projectile is not removed. *)
Lemma projectile_kept_at_3000 :
  ~ (forall cap now deltaTime p bs st,
       (3000 <= now 0%nat - createdAt p)%Z ->
       fst (fst (updateProjectiles cap now deltaTime [p] bs st)) = []).
Proof.
  intro H.
  specialize (H mountClosure (fun _ => 3000%Z) 0.1
                (mkProjectile (Vector3.mk 0 1.6 0) (Vector3.mk 0 0 (-1)) 25 0)
                [] initialState).
  assert (Hage : (3000 <= 3000 - 0)%Z) by lia.
  specialize (H Hage). discriminate H.
Qed.

(** ** Hit points *)

Lemma struck_health (k : Z) (b : Bacteria) :
  b_health (struck k b) =
  if (b_health b <=? 0)%Z then b_health b else Z.max 0 (b_health b - k).
Proof. unfold struck. destruct (b_health b <=? 0)%Z; reflexivity. Qed.

Lemma struck_nonneg (k : Z) (b : Bacteria) :
  (0 <= b_health b)%Z -> (0 <= b_health (struck k b))%Z.
Proof.
  intro H. rewrite struck_health. destruct (b_health b <=? 0)%Z; lia.
Qed.

Lemma collide_marks_mono (ppos : Vec3) (pIndex bIndex : nat) (b : Bacteria)
    (m : Marks) (j : nat) :
  In j (bacteriaToRemove m) ->
  In j (bacteriaToRemove (snd (collide ppos pIndex bIndex b m))).
Proof.
  intro H. unfold collide. destruct (b_health b <=? 0)%Z; [exact H |].
  destruct (hits ppos b); [| exact H]. cbn [snd bacteriaToRemove].
  destruct (b_health (setHealth b (b_health b - 1)) <=? 0)%Z; [| exact H].
  apply in_or_app. left. exact H.
Qed.

Lemma collide_marks_killed (ppos : Vec3) (pIndex bIndex : nat) (b : Bacteria)
    (m : Marks) :
  (0 < b_health b)%Z -> (b_health (damage ppos b) <= 0)%Z ->
  In bIndex (bacteriaToRemove (snd (collide ppos pIndex bIndex b m))).
Proof.
  intros Hlive Hdead. unfold collide, damage in *.
  destruct (b_health b <=? 0)%Z eqn:Hd; [apply Z.leb_le in Hd; lia |].
  destruct (hits ppos b); [| lia]. cbn [snd bacteriaToRemove].
  apply Z.leb_le in Hdead. rewrite Hdead. apply in_or_app. right. left.
  reflexivity.
Qed.

Lemma checkCollisions_marks_mono (ppos : Vec3) (pIndex : nat)
    (bs : list Bacteria) :
  forall bIndex m j,
    In j (bacteriaToRemove m) ->
    In j (bacteriaToRemove (snd (checkCollisions ppos pIndex bIndex bs m))).
Proof.
  induction bs as [| b rest IH]; intros bIndex m j Hin; [exact Hin |].
  cbn [checkCollisions].
  pose proof (collide_marks_mono ppos pIndex bIndex b m j Hin) as Hm.
  destruct (collide ppos pIndex bIndex b m) as [b' m1].
  specialize (IH (S bIndex) m1 j Hm).
  destruct (checkCollisions ppos pIndex (S bIndex) rest m1) as [rest' m2].
  exact IH.
Qed.

Lemma checkCollisions_marks_killed (ppos : Vec3) (pIndex : nat)
    (bs : list Bacteria) :
  forall bIndex m j b,
    nth_error bs j = Some b ->
    (0 < b_health b)%Z -> (b_health (damage ppos b) <= 0)%Z ->
    In (bIndex + j)%nat
       (bacteriaToRemove (snd (checkCollisions ppos pIndex bIndex bs m))).
Proof.
  induction bs as [| a rest IH]; intros bIndex m j b Hn Hlive Hdead;
    [destruct j; discriminate |].
  cbn [checkCollisions].
  destruct j as [| j].
  - simpl in Hn. injection Hn as ->. rewrite Nat.add_0_r.
    pose proof (collide_marks_killed ppos pIndex bIndex b m Hlive Hdead) as Hk.
    destruct (collide ppos pIndex bIndex b m) as [b' m1].
    pose proof (checkCollisions_marks_mono ppos pIndex rest (S bIndex) m1
                  bIndex Hk) as Hm.
    destruct (checkCollisions ppos pIndex (S bIndex) rest m1) as [rest' m2].
    exact Hm.
  - simpl in Hn.
    destruct (collide ppos pIndex bIndex a m) as [a' m1].
    specialize (IH (S bIndex) m1 j b Hn Hlive Hdead).
    destruct (checkCollisions ppos pIndex (S bIndex) rest m1) as [rest' m2].
    replace (bIndex + S j)%nat with (S bIndex + j)%nat by lia. exact IH.
Qed.

Lemma handleProjectile_marks_mono (now : Z) (pIndex : nat) (moved : Projectile)
    (bs : list Bacteria) (m : Marks) (j : nat) :
  In j (bacteriaToRemove m) ->
  In j (bacteriaToRemove (snd (handleProjectile now pIndex moved bs m))).
Proof.
  intro H. unfold handleProjectile. destruct (expired now moved); [exact H |].
  apply checkCollisions_marks_mono, H.
Qed.

Lemma moveAndCollide_kills_mono (now : nat -> Z) (deltaTime : R)
    (ps : list Projectile) :
  forall pIndex bs m j,
    In j (bacteriaToRemove m) ->
    In j (bacteriaToRemove
            (snd (moveAndCollide now deltaTime pIndex ps bs m))).
Proof.
  induction ps as [| p rest IH]; intros pIndex bs m j Hin; [exact Hin |].
  cbn [moveAndCollide].
  pose proof (handleProjectile_marks_mono (now pIndex) pIndex
                (advance deltaTime p) bs m j Hin) as Hm.
  destruct (handleProjectile (now pIndex) pIndex (advance deltaTime p) bs m)
    as [bs1 m1].
  specialize (IH (S pIndex) bs1 m1 j Hm).
  destruct (moveAndCollide now deltaTime (S pIndex) rest bs1 m1)
    as [[rest' bs2] m2].
  exact IH.
Qed.

(** A bacterium that a pass brings from positive hit points to none is
    marked for removal in that pass. *)
Lemma moveAndCollide_marks_killed (now : nat -> Z) (deltaTime : R)
    (ps : list Projectile) :
  forall pIndex bs m j b,
    nth_error bs j = Some b ->
    (0 < b_health b)%Z ->
    (b_health (struck (strikes now deltaTime pIndex ps b) b) <= 0)%Z ->
    In j (bacteriaToRemove
            (snd (moveAndCollide now deltaTime pIndex ps bs m))).
Proof.
  induction ps as [| p rest IH]; intros pIndex bs m j b Hn Hlive Hdead.
  - rewrite struck_health in Hdead. cbn [strikes] in Hdead.
    destruct (b_health b <=? 0)%Z eqn:Hd; [lia |]. lia.
  - cbn [moveAndCollide].
    pose proof (handleProjectile_bacteria (now pIndex) pIndex
                  (advance deltaTime p) bs m) as Hb.
    unfold handleProjectile in *.
    cbn [strikes] in Hdead.
    destruct (expired (now pIndex) (advance deltaTime p)) eqn:He.
    + cbn [negb andb] in Hdead. rewrite Z.add_0_l in Hdead.
      specialize (IH (S pIndex) bs
                     (mkMarks (projectilesToRemove m ++ [pIndex])
                              (bacteriaToRemove m)) j b Hn Hlive Hdead).
      destruct (moveAndCollide now deltaTime (S pIndex) rest bs
                  (mkMarks (projectilesToRemove m ++ [pIndex])
                           (bacteriaToRemove m))) as [[rest' bs2] m2].
      exact IH.
    + cbn [negb andb] in Hdead.
      pose proof (checkCollisions_marks_killed
                    (p_position (advance deltaTime p)) pIndex bs 0 m j b Hn
                    Hlive) as Hk.
      destruct (checkCollisions (p_position (advance deltaTime p)) pIndex 0 bs m)
        as [bs1 m1].
      cbn [fst] in Hb. subst bs1.
      destruct (Z_le_gt_dec
                  (b_health (damage (p_position (advance deltaTime p)) b)) 0)
        as [Hnow | Hlater].
      * specialize (Hk Hnow). cbn [snd Nat.add] in Hk.
        pose proof (moveAndCollide_kills_mono now deltaTime rest (S pIndex)
                      (map (damage (p_position (advance deltaTime p))) bs)
                      m1 j Hk) as Hm.
        destruct (moveAndCollide now deltaTime (S pIndex) rest
                    (map (damage (p_position (advance deltaTime p))) bs) m1)
          as [[rest' bs2] m2].
        exact Hm.
      * rewrite <- struck_damage in Hdead by apply strikes_nonneg.
        rewrite <- (strikes_damage now deltaTime rest
                      (p_position (advance deltaTime p)) b (S pIndex))
          in Hdead.
        assert (Hn' : nth_error
                        (map (damage (p_position (advance deltaTime p))) bs) j
                      = Some (damage (p_position (advance deltaTime p)) b)).
        { rewrite nth_error_map, Hn. reflexivity. }
        specialize (IH (S pIndex)
                       (map (damage (p_position (advance deltaTime p))) bs)
                       m1 j _ Hn' ltac:(lia) Hdead).
        destruct (moveAndCollide now deltaTime (S pIndex) rest
                    (map (damage (p_position (advance deltaTime p))) bs) m1)
          as [[rest' bs2] m2].
        exact IH.
Qed.

Lemma In_keepUnmarked {A : Type} (marks : list nat) (l : list A) (a : A) :
  forall i, In a (keepUnmarked marks i l) ->
    exists j, nth_error l j = Some a /\ ~ In (i + j)%nat marks.
Proof.
  induction l as [| c rest IH]; intros i Hin; [contradiction |].
  cbn [keepUnmarked] in Hin.
  destruct (existsb (Nat.eqb i) marks) eqn:He.
  - destruct (IH (S i) Hin) as (j & Hn & Hm). exists (S j).
    split; [exact Hn |]. replace (i + S j)%nat with (S i + j)%nat by lia.
    exact Hm.
  - destruct Hin as [-> | Hin].
    + exists 0%nat. split; [reflexivity |]. rewrite Nat.add_0_r.
      intro Hc. apply existsb_eqb_In in Hc. congruence.
    + destruct (IH (S i) Hin) as (j & Hn & Hm). exists (S j).
      split; [exact Hn |]. replace (i + S j)%nat with (S i + j)%nat by lia.
      exact Hm.
Qed.

(** After a pass over a list of live bacteria every bacterium left in the
    list is live. *)
Lemma updateProjectiles_live (cap : Captured) (now : nat -> Z) (deltaTime : R)
    (ps : list Projectile) (bs : list Bacteria) (st : GameState) :
  Forall (fun b => (0 < b_health b)%Z) bs ->
  Forall (fun b => (0 < b_health b)%Z)
         (snd (fst (updateProjectiles cap now deltaTime ps bs st))).
Proof.
  intro Hlive. rewrite updateProjectiles_bacteria.
  apply Forall_forall. intros a Hin.
  apply In_keepUnmarked in Hin. destruct Hin as (j & Hn & Hm).
  rewrite nth_error_map in Hn.
  destruct (nth_error bs j) as [b |] eqn:Hb; [| discriminate].
  injection Hn as <-.
  assert (Hbl : (0 < b_health b)%Z).
  { rewrite Forall_forall in Hlive. apply Hlive.
    eapply nth_error_In. exact Hb. }
  destruct (Z_le_gt_dec (b_health (struck (strikes now deltaTime 0 ps b) b)) 0)
    as [Hdead | Hok]; [| lia].
  exfalso. apply Hm. cbn [Nat.add].
  apply (moveAndCollide_marks_killed now deltaTime ps 0 bs (mkMarks [] []) j b
           Hb Hbl Hdead).
Qed.

(** ** Score and completion *)

Lemma completionThreshold_0 : completionThreshold 0 = 0%Z.
Proof. unfold completionThreshold. apply Zceil_eq. simpl. lra. Qed.

Lemma completionThreshold_12 : completionThreshold 12 = 10%Z.
Proof. unfold completionThreshold. apply Zceil_eq. simpl. lra. Qed.

(** What the stale closure makes of a kill: whatever the score, the total
    and the completion flag of the current state are, the score becomes the
    points of this one bacterium plus the bonus, and the completion callback
    is called. *)
Lemma scoreKill_mountClosure (b : Bacteria) (st : GameState) :
  (0 <= bacteriaKilled st)%Z ->
  scoreKill mountClosure b st =
  mkGameState (points (b_type b) + 50) (bacteriaKilled st + 1)
              (totalBacteria st) true
              (onScoreUpdate_calls st ++ [points (b_type b)])
              (onComplete_calls st ++ [Z.min 100 (points (b_type b) + 50)]).
Proof.
  intro Hk. unfold scoreKill, mountClosure.
  cbn [cap_score cap_totalBacteria cap_gameComplete initialState score
       totalBacteria gameComplete].
  rewrite completionThreshold_0.
  cbn [onScoreUpdate setScore bacteriaKilled negb andb].
  assert (Hge : (bacteriaKilled st + 1 >=? 0)%Z = true)
    by (apply Z.geb_le; lia).
  rewrite Hge. reflexivity.
Qed.

Lemma collide_hit (ppos : Vec3) (pIndex bIndex : nat) (b : Bacteria)
    (m : Marks) :
  (0 < b_health b)%Z -> hits ppos b = true ->
  collide ppos pIndex bIndex b m =
  (setHealth b (b_health b - 1),
   mkMarks (projectilesToRemove m ++ [pIndex])
           (if (b_health b - 1 <=? 0)%Z then bacteriaToRemove m ++ [bIndex]
            else bacteriaToRemove m)).
Proof.
  intros Hlive Hhit. unfold collide. apply Z.leb_gt in Hlive.
  rewrite Hlive, Hhit. reflexivity.
Qed.

Lemma collide_miss (ppos : Vec3) (pIndex bIndex : nat) (b : Bacteria)
    (m : Marks) :
  hits ppos b = false -> collide ppos pIndex bIndex b m = (b, m).
Proof.
  intro Hmiss. unfold collide. rewrite Hmiss.
  destruct (b_health b <=? 0)%Z; reflexivity.
Qed.

Lemma checkCollisions_miss (ppos : Vec3) (pIndex : nat) (bs : list Bacteria) :
  Forall (fun b => hits ppos b = false) bs ->
  forall bIndex m, checkCollisions ppos pIndex bIndex bs m = (bs, m).
Proof.
  induction 1 as [| b rest Hb Hrest IH]; intros bIndex m; [reflexivity |].
  cbn [checkCollisions]. rewrite (collide_miss _ _ _ _ _ Hb), IH. reflexivity.
Qed.

(** A pass in which the only projectile kills the first bacterium of the
    list and is within reach of no other. *)
Lemma updateProjectiles_single_kill (cap : Captured) (now : nat -> Z)
    (deltaTime : R) (p : Projectile) (b : Bacteria) (rest : list Bacteria)
    (st : GameState) :
  expired (now 0%nat) (advance deltaTime p) = false ->
  hits (p_position (advance deltaTime p)) b = true ->
  b_health b = 1%Z ->
  Forall (fun c => hits (p_position (advance deltaTime p)) c = false) rest ->
  updateProjectiles cap now deltaTime [p] (b :: rest) st =
  ([], rest, scoreKill cap (setHealth b 0) st).
Proof.
  intros He Hhit Hh Hrest. unfold updateProjectiles.
  cbn [moveAndCollide]. rewrite (handleProjectile_live _ _ _ _ _ He).
  cbn [checkCollisions]. rewrite collide_hit by (rewrite ?Hh; auto; lia).
  rewrite (checkCollisions_miss _ _ _ Hrest). rewrite Hh.
  reflexivity.
Qed.

Lemma hits_false_iff (ppos : Vec3) (b : Bacteria) :
  hits ppos b = false <->
  0.36 <= Vector3.distanceToSquared ppos (b_position b).
Proof.
  rewrite <- not_true_iff_false, hits_iff. split; intro H; lra.
Qed.

Lemma shotAtStrep_hits :
  hits (p_position (advance 0.016 shotAtStrep)) strepCell = true /\
  Forall (fun c => hits (p_position (advance 0.016 shotAtStrep)) c = false)
         (coliCell :: repeat farCell 10).
Proof.
  split.
  - apply hits_iff. unfold Vector3.distanceToSquared. simpl. lra.
  - constructor.
    + apply hits_false_iff. unfold Vector3.distanceToSquared. simpl. lra.
    + apply Forall_forall. intros c Hc. apply repeat_spec in Hc. subst c.
      apply hits_false_iff. unfold Vector3.distanceToSquared. simpl. lra.
Qed.

Lemma shotAtColi_hits :
  hits (p_position (advance 0.016 shotAtColi)) coliCell = true /\
  Forall (fun c => hits (p_position (advance 0.016 shotAtColi)) c = false)
         (repeat farCell 10).
Proof.
  split.
  - apply hits_iff. unfold Vector3.distanceToSquared. simpl. lra.
  - apply Forall_forall. intros c Hc. apply repeat_spec in Hc. subst c.
    apply hits_false_iff. unfold Vector3.distanceToSquared. simpl. lra.
Qed.

(** Once the flag is set the completion effect does nothing. *)
Lemma completionEffect_done (st : GameState) :
  gameComplete st = true -> completionEffect st = st.
Proof.
  intro H. unfold completionEffect. rewrite H. cbn [negb].
  rewrite andb_false_r. destruct (_ && _); reflexivity.
Qed.

(** The pass in which [shotAtStrep] kills [strepCell], from any state, and
    the pass in which [shotAtColi] then kills [coliCell]. *)
Lemma strep_then_coli (st : GameState) :
  updateProjectiles mountClosure (fun _ => 100%Z) 0.016 [shotAtStrep]
    (strepCell :: coliCell :: repeat farCell 10) st =
  ([], coliCell :: repeat farCell 10,
   scoreKill mountClosure (setHealth strepCell 0) st) /\
  updateProjectiles mountClosure (fun _ => 1100%Z) 0.016 [shotAtColi]
    (coliCell :: repeat farCell 10) st =
  ([], repeat farCell 10, scoreKill mountClosure (setHealth coliCell 0) st).
Proof.
  split.
  - destruct shotAtStrep_hits as [Hhit Hmiss].
    apply updateProjectiles_single_kill; auto.
  - destruct shotAtColi_hits as [Hhit Hmiss].
    apply updateProjectiles_single_kill; auto.
Qed.

(** C2, the code at a failing input: in a level of twelve, a pass kills a
    Streptococcus and a later pass an E. coli.  The score after the first
    kill is 75; after the second it is 60, and the running scores reported
    are 25 and then 10. *)
Theorem score_drops_on_second_kill :
  let st0 := setTotalBacteria 12 initialState in
  let '(_, bs1, st1) :=
    updateProjectiles mountClosure (fun _ => 100%Z) 0.016 [shotAtStrep]
      (strepCell :: coliCell :: repeat farCell 10) st0 in
  let '(_, _, st2) :=
    updateProjectiles mountClosure (fun _ => 1100%Z) 0.016 [shotAtColi]
      bs1 (completionEffect st1) in
  score st1 = 75%Z /\ score st2 = 60%Z /\
  onScoreUpdate_calls st2 = [25; 10]%Z.
Proof.
  cbv zeta.
  rewrite (proj1 (strep_then_coli (setTotalBacteria 12 initialState))).
  rewrite scoreKill_mountClosure by (simpl; lia).
  rewrite completionEffect_done by reflexivity.
  rewrite (proj2 (strep_then_coli _)).
  rewrite scoreKill_mountClosure by (simpl; lia).
  simpl. auto.
Qed.

(** C3, the code at a failing input: in a level of twelve, where the
    threshold is ten kills, the first kill already sets the completion flag
    and calls the completion callback with 75, and the second kill calls it
    again, with 60, and sets the score to 60. *)
Theorem completion_fires_on_every_kill :
  let st0 := setTotalBacteria 12 initialState in
  let '(_, bs1, st1) :=
    updateProjectiles mountClosure (fun _ => 100%Z) 0.016 [shotAtStrep]
      (strepCell :: coliCell :: repeat farCell 10) st0 in
  let '(_, _, st2) :=
    updateProjectiles mountClosure (fun _ => 1100%Z) 0.016 [shotAtColi]
      bs1 (completionEffect st1) in
  completionThreshold (totalBacteria st0) = 10%Z /\
  bacteriaKilled st1 = 1%Z /\ gameComplete st1 = true /\
  onComplete_calls st1 = [75]%Z /\
  bacteriaKilled st2 = 2%Z /\ onComplete_calls st2 = [75; 60]%Z /\
  score st2 = 60%Z.
Proof.
  cbv zeta.
  rewrite (proj1 (strep_then_coli (setTotalBacteria 12 initialState))).
  rewrite scoreKill_mountClosure by (simpl; lia).
  rewrite completionEffect_done by reflexivity.
  rewrite (proj2 (strep_then_coli _)).
  rewrite scoreKill_mountClosure by (simpl; lia).
  split; [exact completionThreshold_12 |]. simpl. auto 10.
Qed.

(** ** The mounted component *)

Lemma mount_spec (random : nat -> R) :
  (forall k, 0 <= random k < 1) ->
  exists w0,
    mount random = Some w0 /\
    Forall freshlySpawned (bacteriaRef w0) /\
    projectilesRef w0 = [] /\
    state w0 =
      setTotalBacteria (Z.of_nat (List.length (bacteriaRef w0))) initialState.
Proof.
  intro Hrandom. unfold mount.
  destruct (generateLevel random 0%nat) as [rooms n1].
  unfold createLevelGeometry.
  destruct (spawnRooms_spec random Hrandom rooms 0 0 [] (n1 + 30 * 9))
    as (new & n3 & Hsp & Hlen & _ & _ & Hfresh).
  rewrite Hsp. eexists. split; [reflexivity |].
  cbn [bacteriaRef projectilesRef state app]. rewrite Z.add_0_l, Hlen.
  auto.
Qed.

Lemma freshlySpawned_live (b : Bacteria) :
  freshlySpawned b -> (0 < b_health b)%Z.
Proof.
  intros ([Ht | Ht] & Hh & _); rewrite Hh, Ht; simpl; lia.
Qed.


Lemma animate_bacteria (random : nat -> R) (delta : R) (cameraPos : Vec3)
    (now : nat -> Z) (w : World) :
  bacteriaRef (animate random delta cameraPos now w) =
  snd (fst (updateProjectiles mountClosure now (Rmin delta 0.1)
              (projectilesRef w)
              (fst (updateBacteria random cameraPos (Rmin delta 0.1)
                      (bacteriaRef w) (calls w)))
              (state w))).
Proof.
  unfold animate.
  destruct (updateBacteria random cameraPos (Rmin delta 0.1) (bacteriaRef w)
              (calls w)) as [bs1 n1].
  cbn [fst].
  destruct (updateProjectiles mountClosure now (Rmin delta 0.1)
              (projectilesRef w) bs1 (state w)) as [[ps2 bs2] st2].
  reflexivity.
Qed.

Lemma step_live (random : nat -> R) (w : World) (e : Event) :
  Forall (fun c => (0 < b_health c)%Z) (bacteriaRef w) ->
  Forall (fun c => (0 < b_health c)%Z) (bacteriaRef (step random w e)).
Proof.
  intro Hlive. destruct e as [camera now | delta cameraPos now];
    cbn [step bacteriaRef]; [exact Hlive |].
  rewrite animate_bacteria. apply updateProjectiles_live.
  apply updateBacteria_Forall; [| exact Hlive].
  intros b n Hb. rewrite (proj1 (steer_keeps_health _ _ _ _ _)). exact Hb.
Qed.

Lemma run_live (random : nat -> R) (events : list Event) :
  forall w,
    Forall (fun c => (0 < b_health c)%Z) (bacteriaRef w) ->
    Forall (fun c => (0 < b_health c)%Z) (bacteriaRef (run random events w)).
Proof.
  unfold run. induction events as [| e rest IH]; intros w Hlive;
    [exact Hlive |].
  cbn [fold_left]. apply IH, step_live, Hlive.
Qed.




(** C4.  From the mounted component, after any sequence of clicks and
    frames, every bacterium in the list has positive hit points (a cell
    whose hit points reach 0 is removed in the same pass); during the
    collision pass of the next frame no hit points go below 0; and a
    bacterium with hit points at or below 0 is returned unchanged, without
    any draw, by the steering step, and unchanged and unmarked by the
    collision test of any projectile. *)
Theorem hit_points_never_negative (random : nat -> R) (events : list Event)
    (playerPos : Vec3) (deltaTime : R) (now : nat -> Z) (ps : list Projectile)
    (b : Bacteria) (n : nat) (ppos : Vec3) (pIndex bIndex : nat) (m : Marks)
    (Hrandom : forall k, 0 <= random k < 1)
    (Hdead : (b_health b <= 0)%Z) :
  (exists w0,
     mount random = Some w0 /\
     let bs := bacteriaRef (run random events w0) in
     Forall (fun c => (0 < b_health c)%Z) bs /\
     Forall (fun c => (0 <= b_health c)%Z)
       (snd (fst (moveAndCollide now deltaTime 0 ps
                    (fst (updateBacteria random playerPos deltaTime bs n))
                    (mkMarks [] []))))) /\
  steer random playerPos deltaTime b n = (b, n) /\
  collide ppos pIndex bIndex b m = (b, m).
Proof.
  split; [| split; [apply steer_dead | apply collide_dead]; exact Hdead].
  destruct (mount_spec random Hrandom) as (w0 & Hm & Hfresh & _).
  exists w0. split; [exact Hm |]. cbv zeta.
  assert (Hlive : Forall (fun c => (0 < b_health c)%Z)
                         (bacteriaRef (run random events w0))).
  { apply run_live. eapply Forall_impl; [| exact Hfresh].
    apply freshlySpawned_live. }
  split; [exact Hlive |].
  rewrite moveAndCollide_bacteria. apply Forall_map.
  eapply Forall_impl;
    [| apply (updateBacteria_Forall (fun c => (0 < b_health c)%Z));
       [| exact Hlive]].
  - intros c Hc. apply struck_nonneg. simpl in Hc. lia.
  - intros c k Hc. rewrite (proj1 (steer_keeps_health _ _ _ _ _)). exact Hc.
Qed.

Lemma hit_points_never_negative_witness :
  steer (fun _ => 0) (Vector3.mk 0 1.6 0) 0.016 (setHealth strepCell 0) 0%nat
  = (setHealth strepCell 0, 0%nat).
Proof.
  apply (hit_points_never_negative (fun _ => 0) [] (Vector3.mk 0 1.6 0) 0.016
           (fun _ => 100%Z) [shotAtStrep] (setHealth strepCell 0) 0%nat
           (Vector3.mk 0 1.6 (-5)) 0 0 (mkMarks [] [])).
  - intro k. lra.
  - simpl. lia.
Defined.




(** ** Normalization of directions *)


Lemma normalize_cases (v : Vec3) :
  Vector3.normalize v =
  if Req_dec_T (Vector3.length v) 0 then Vector3.zero
  else Vector3.divideScalar v (Vector3.length v).
Proof.
  destruct (Req_dec_T (Vector3.length v) 0) as [H | H].
  - apply normalize_zero_length, H.
  - unfold Vector3.normalize, Vector3.lengthOr1.
    destruct (Req_dec_T (Vector3.length v) 0); [contradiction | reflexivity].
Qed.







(** * Further properties of the component *)

(** ** Wandering *)

Lemma wanderRetarget_spec (random : nat -> R) (b : Bacteria) (timer : R)
    (n : nat) :
  wanderRetarget random b timer n =
  let '(target, timer', n') := wanderChoice random b timer n in
  (target, timer', n').
Proof.
  unfold wanderRetarget, wanderChoice.
  replace (n + 4)%nat with (S (S (S (S n)))) by lia.
  destruct (targetPosition b) as [old |];
    [destruct (Rle_dec timer 0) |]; reflexivity.
Qed.

Lemma wanderChoice_fresh (random : nat -> R) (b : Bacteria) (timer : R)
    (n : nat) :
  (forall k, 0 <= random k < 1) ->
  targetPosition b = None \/ timer <= 0 ->
  let '(target, timer', k) := wanderChoice random b timer n in
  Rabs (Vector3.x target - Vector3.x (b_position b)) <= 3 /\
  Rabs (Vector3.y target - Vector3.y (b_position b)) <= 1 /\
  Rabs (Vector3.z target - Vector3.z (b_position b)) <= 3 /\
  2 <= timer' <= 4 /\ k = (n + 4)%nat.
Proof.
  intros Hrandom Hcond.
  pose proof (Hrandom n). pose proof (Hrandom (S n)).
  pose proof (Hrandom (S (S n))). pose proof (Hrandom (S (S (S n)))).
  assert (Hfresh :
    Rabs (Vector3.x (b_position b) + (random n - 0.5) * 6
          - Vector3.x (b_position b)) <= 3 /\
    Rabs (Vector3.y (b_position b) + (random (S n) - 0.5) * 2
          - Vector3.y (b_position b)) <= 1 /\
    Rabs (Vector3.z (b_position b) + (random (S (S n)) - 0.5) * 6
          - Vector3.z (b_position b)) <= 3 /\
    2 <= 2 + random (S (S (S n))) * 2 <= 4 /\ (n + 4)%nat = (n + 4)%nat).
  { repeat split; try lra; apply Rabs_le; lra. }
  unfold wanderChoice. destruct (targetPosition b) as [old |].
  - destruct (Rle_dec timer 0) as [Hle | Hgt]; [exact Hfresh |].
    destruct Hcond as [Hc | Hc]; [discriminate | lra].
  - exact Hfresh.
Qed.

Lemma wanderChoice_keep (random : nat -> R) (b : Bacteria) (timer : R)
    (n : nat) (old : Vec3) :
  targetPosition b = Some old -> 0 < timer ->
  wanderChoice random b timer n = (old, timer, n).
Proof.
  intros Ht Hpos. unfold wanderChoice. rewrite Ht.
  destruct (Rle_dec timer 0); [lra | reflexivity].
Qed.

(** X1.  A live bacterium of a wander type interpolates its velocity, with
    factor 0.02, toward the unit direction to its target times the type
    speed.  The target is the old one while the timer runs; when the timer
    has run out or no target is set, a new one is drawn within 3 units of
    the current position along each horizontal axis and within 1 unit
    vertically, with a timer between 2 and 4.  The player's position plays
    no part. *)
Theorem wander_steering (random : nat -> R) (playerPos other : Vec3)
    (deltaTime : R) (b : Bacteria) (n : nat)
    (Hrandom : forall k, 0 <= random k < 1)
    (Hlive : (0 < b_health b)%Z)
    (Hwander : behavior (b_type b) = wander) :
  let pos := b_position b in
  let timer := wanderTimer b - deltaTime in
  let b' := fst (steer random playerPos deltaTime b n) in
  let n' := snd (steer random playerPos deltaTime b n) in
  let '(target, timer', k) := wanderChoice random b timer n in
  velocity b' =
    Vector3.lerp (velocity b)
      (Vector3.multiplyScalar
         (Vector3.normalize (Vector3.sub target pos)) (speed (b_type b)))
      0.02 /\
  targetPosition b' = Some target /\
  wanderTimer b' = timer' /\ n' = k /\
  (targetPosition b = None \/ timer <= 0 ->
     Rabs (Vector3.x target - Vector3.x pos) <= 3 /\
     Rabs (Vector3.y target - Vector3.y pos) <= 1 /\
     Rabs (Vector3.z target - Vector3.z pos) <= 3 /\
     2 <= timer' <= 4 /\ k = (n + 4)%nat) /\
  (forall old, targetPosition b = Some old -> 0 < timer ->
     target = old /\ timer' = timer /\ k = n) /\
  steer random other deltaTime b n = steer random playerPos deltaTime b n.
Proof.
  cbv zeta.
  rewrite (steer_live random other deltaTime b n Hlive).
  rewrite (steer_live random playerPos deltaTime b n Hlive).
  unfold steerVelocity. rewrite Hwander. unfold bind, ret.
  rewrite wanderRetarget_spec.
  pose proof (wanderChoice_fresh random b (wanderTimer b - deltaTime) n
                Hrandom) as Hf.
  pose proof (wanderChoice_keep random b (wanderTimer b - deltaTime) n) as Hk.
  destruct (wanderChoice random b (wanderTimer b - deltaTime) n)
    as [[target timer'] k].
  cbn [fst snd velocity targetPosition wanderTimer].
  repeat (split; [reflexivity |]). split; [exact Hf |]. split; [| reflexivity].
  intros old Ho Ht. specialize (Hk old Ho Ht). injection Hk as -> -> ->. auto.
Qed.

Lemma wander_steering_witness :
  let b := mkBacteria (Vector3.mk 20 2 0) ecoli 1 Vector3.zero
                      (Some (Vector3.mk 21 2 0)) 3 in
  velocity (fst (steer (fun _ => 0) (Vector3.mk 0 1.6 0) 0.016 b 0%nat)) =
  Vector3.lerp Vector3.zero
    (Vector3.multiplyScalar
       (Vector3.normalize
          (Vector3.sub (Vector3.mk 21 2 0) (Vector3.mk 20 2 0))) 2)
    0.02.
Proof.
  intro b.
  pose proof (wander_steering (fun _ => 0) (Vector3.mk 0 1.6 0)
                (Vector3.mk 0 1.6 0) 0.016 b 0%nat) as H.
  cbv zeta in H. unfold wanderChoice in H.
  cbn [targetPosition b wanderTimer] in H.
  destruct (Rle_dec (3 - 0.016) 0) as [Hle | _]; [lra |].
  apply H.
  - intro k. lra.
  - simpl. lia.
  - reflexivity.
Defined.

(** ** The generated level and the bacteria spawned in it *)

Lemma generateLevel_explicit (random : nat -> R) (n : nat) :
  generateLevel random n =
  ([ spawnRoom;
     mkRoom (Vector3.mk 0 0 (-20)) (10 + random n * 6)
            (5 + random (1 + n)%nat * 3) (10 + random (2 + n)%nat * 6) true;
     mkRoom (Vector3.mk 20 0 0) (10 + random (3 + n)%nat * 6)
            (5 + random (4 + n)%nat * 3) (10 + random (5 + n)%nat * 6) true;
     mkRoom (Vector3.mk (-20) 0 0) (10 + random (6 + n)%nat * 6)
            (5 + random (7 + n)%nat * 3) (10 + random (8 + n)%nat * 6) true;
     mkRoom (Vector3.mk 0 0 (-40)) (10 + random (9 + n)%nat * 6)
            (5 + random (10 + n)%nat * 3) (10 + random (11 + n)%nat * 6) true ],
   (12 + n)%nat).
Proof. reflexivity. Qed.

Lemma generated_room_cases (random : nat -> R) (n : nat) (room : Room) :
  (forall k, 0 <= random k < 1) ->
  In room (fst (generateLevel random n)) -> hasBacteria room = true ->
  (10 <= width room < 16 /\ 10 <= depth room < 16) /\
  (position room = Vector3.mk 0 0 (-20) \/ position room = Vector3.mk 20 0 0 \/
   position room = Vector3.mk (-20) 0 0 \/ position room = Vector3.mk 0 0 (-40)).
Proof.
  intros Hrandom Hin Hflag. rewrite generateLevel_explicit in Hin.
  cbn [fst] in Hin.
  destruct Hin as [<- | [<- | [<- | [<- | [<- | []]]]]];
    [discriminate Hflag | | | |]; cbn [width depth position];
    repeat match goal with
    | |- context [random ?k] =>
        lazymatch goal with
        | H : _ <= random k < 1 |- _ => fail
        | _ => pose proof (Hrandom k)
        end
    end; (split; [lra | auto]).
Qed.

Lemma spawnRooms_Forall (random : nat -> R) (P : Bacteria -> Prop)
    (Hrandom : forall k, 0 <= random k < 1) (rooms : list Room) :
  (forall room, In room rooms -> hasBacteria room = true ->
     forall k, exists b k', spawnOne random room k = (Some b, k') /\ P b) ->
  forall index total bs n,
  exists count new n',
    spawnRooms random rooms index total bs n = (Some (count, bs ++ new), n') /\
    Forall P new.
Proof.
  induction rooms as [| room rest IH]; intros Hone index total bs n.
  - exists total, [], n. simpl. unfold ret. rewrite app_nil_r. auto.
  - cbn [spawnRooms]. destruct (hasBacteria room) eqn:Hflag.
    + destruct (spawnBacteriaInRoom_gen random Hrandom P room index bs n
                  (Hone room (or_introl eq_refl) Hflag))
        as (new1 & n1 & Hsp & _ & Hf1).
      destruct (IH (fun r Hr => Hone r (or_intror Hr)) (S index)
                   (total + (3 + Zfloor (random n * 3)))%Z (bs ++ new1) n1)
        as (count & new2 & n2 & Hrest & Hf2).
      exists count, (new1 ++ new2), n2. unfold bind. rewrite Hsp.
      cbv beta iota. rewrite Hrest, app_assoc. split; [reflexivity |].
      apply Forall_app. split; assumption.
    + apply (IH (fun r Hr => Hone r (or_intror Hr))).
Qed.

(** Where a bacterium spawned in one of the four outer rooms can be. *)
Lemma spawnedIn_far (room : Room) (b : Bacteria) :
  10 <= width room < 16 -> 10 <= depth room < 16 ->
  position room = Vector3.mk 0 0 (-20) \/ position room = Vector3.mk 20 0 0 \/
  position room = Vector3.mk (-20) 0 0 \/ position room = Vector3.mk 0 0 (-40) ->
  spawnedIn room b ->
  1 <= Vector3.y (b_position b) <= 3 /\
  13 <= Vector3.distanceTo (b_position b) (Vector3.mk 0 1.6 0).
Proof.
  intros Hw Hd Hpos (_ & Hx & Hy & Hz). split; [exact Hy |].
  destruct (Rlt_dec (Vector3.distanceTo (b_position b) (Vector3.mk 0 1.6 0)) 13)
    as [Hlt | Hge]; [| lra].
  exfalso. apply distanceTo_lt in Hlt; [| lra].
  unfold Vector3.distanceToSquared in Hlt. cbn [Vector3.x Vector3.y Vector3.z] in Hlt.
  pose proof (Rle_0_sqr (Vector3.x (b_position b) - 0)) as Sx.
  pose proof (Rle_0_sqr (Vector3.y (b_position b) - 1.6)) as Sy.
  pose proof (Rle_0_sqr (Vector3.z (b_position b) - 0)) as Sz.
  unfold Rsqr in *.
  destruct Hpos as [Hp | [Hp | [Hp | Hp]]]; rewrite Hp in Hx, Hz;
    cbn [Vector3.x Vector3.z] in Hx, Hz; nra.
Qed.

Lemma sumZ_bounds (lo hi : Z) (l : list Z) :
  Forall (fun c => (lo <= c <= hi)%Z) l ->
  (lo * Z.of_nat (List.length l) <= sumZ l <= hi * Z.of_nat (List.length l))%Z.
Proof.
  induction 1 as [| c rest Hc Hrest IH]; [simpl; lia |].
  rewrite sumZ_cons. cbn [List.length]. rewrite Nat2Z.inj_succ. lia.
Qed.

Lemma mount_full (random : nat -> R) :
  (forall k, 0 <= random k < 1) ->
  exists w0,
    mount random = Some w0 /\
    projectilesRef w0 = [] /\
    state w0 =
      setTotalBacteria (Z.of_nat (List.length (bacteriaRef w0))) initialState /\
    (12 <= List.length (bacteriaRef w0) <= 20)%nat /\
    Forall (fun b =>
              freshlySpawned b /\
              1 <= Vector3.y (b_position b) <= 3 /\
              13 <= Vector3.distanceTo (b_position b) (Vector3.mk 0 1.6 0))
           (bacteriaRef w0).
Proof.
  intro Hrandom. unfold mount.
  pose proof (generated_room_cases random 0 ) as Hcases.
  pose proof (generateLevel_explicit random 0) as Hrooms.
  destruct (generateLevel random 0%nat) as [rooms n1].
  unfold createLevelGeometry.
  destruct (spawnRooms_spec random Hrandom rooms 0 0 [] (n1 + 30 * 9))
    as (new & n3 & Hsp & Hlen & Hcounts & Hnum & _).
  destruct (spawnRooms_Forall random
              (fun b =>
                 freshlySpawned b /\
                 1 <= Vector3.y (b_position b) <= 3 /\
                 13 <= Vector3.distanceTo (b_position b) (Vector3.mk 0 1.6 0))
              Hrandom rooms) with (index := 0%nat) (total := 0%Z)
              (bs := @nil Bacteria) (n := (n1 + 30 * 9)%nat)
    as (count & new' & n3' & Hsp' & Hall).
  { intros room Hin Hflag k.
    destruct (Hcases room Hrandom Hin Hflag) as [[Hw Hd] Hpos].
    destruct (spawnOne_spec random Hrandom room k) as (b & k' & Hb & _ & Hs);
      [lra | lra |].
    exists b, k'. split; [exact Hb |]. split; [apply Hs |].
    apply (spawnedIn_far room b Hw Hd Hpos Hs). }
  rewrite Hsp in Hsp'. injection Hsp' as _ Hnew _. subst new'.
  rewrite Hsp. eexists. split; [reflexivity |].
  cbn [bacteriaRef projectilesRef state app]. rewrite Z.add_0_l, Hlen.
  split; [reflexivity |]. split; [reflexivity |]. split; [| exact Hall].
  pose proof (sumZ_bounds 3 5 _ Hcounts) as Hb. rewrite Hnum in Hb.
  injection Hrooms as Hrooms _. subst rooms. cbn [filter hasBacteria spawnRoom List.length] in Hb.
  lia.
Qed.

(** X2.  When the component has mounted there are between 12 and 20
    bacteria and no projectile; the total is the number of bacteria, the
    score and the kill count are 0 and the game is not complete; and every
    bacterium is at full health, at rest, at a height between 1 and 3 and at
    least 13 units away from the camera's starting point. *)
Theorem mounted_level (random : nat -> R)
    (Hrandom : forall k, 0 <= random k < 1) :
  exists w0,
    mount random = Some w0 /\
    projectilesRef w0 = [] /\
    (12 <= totalBacteria (state w0) <= 20)%Z /\
    totalBacteria (state w0) = Z.of_nat (List.length (bacteriaRef w0)) /\
    score (state w0) = 0%Z /\ bacteriaKilled (state w0) = 0%Z /\
    gameComplete (state w0) = false /\
    onComplete_calls (state w0) = [] /\
    Forall (fun b =>
              b_health b = health (b_type b) /\
              velocity b = Vector3.zero /\
              1 <= Vector3.y (b_position b) <= 3 /\
              13 <= Vector3.distanceTo (b_position b) (Vector3.mk 0 1.6 0))
           (bacteriaRef w0).
Proof.
  destruct (mount_full random Hrandom) as (w0 & Hm & Hps & Hst & Hn & Hall).
  exists w0. split; [exact Hm |]. split; [exact Hps |]. rewrite Hst.
  cbn [setTotalBacteria initialState totalBacteria score bacteriaKilled
       gameComplete onComplete_calls].
  repeat split; try lia.
  eapply Forall_impl; [| exact Hall].
  intros b ((_ & Hh & Hv & _) & Hy & Hd). auto.
Qed.

Lemma mounted_level_witness :
  exists w0,
    mount (fun _ => 0) = Some w0 /\
    (12 <= totalBacteria (state w0) <= 20)%Z.
Proof.
  destruct (mounted_level (fun _ => 0)) as (w0 & Hm & _ & Hn & _).
  - intro k. lra.
  - exists w0. split; assumption.
Defined.

(** ** Where steering can take a bacterium *)

Lemma steer_inBand (random : nat -> R) (playerPos : Vec3) (deltaTime : R)
    (b : Bacteria) (n : nat) :
  inBand b -> inBand (fst (steer random playerPos deltaTime b n)).
Proof.
  intro Hb. destruct (Z_lt_le_dec 0 (b_health b)) as [Hlive | Hdead].
  - rewrite (steer_live _ _ _ _ _ Hlive).
    destruct (steerVelocity random playerPos b (wanderTimer b - deltaTime) n)
      as [[[v target] timer] n'].
    unfold inBand. cbn [fst b_position Vector3.setY Vector3.y]. split.
    + apply Rmax_l.
    + apply Rmax_lub; [lra | apply Rmin_l].
  - rewrite (steer_dead _ _ _ _ _ Hdead). exact Hb.
Qed.

Lemma struck_inBand (k : Z) (b : Bacteria) : inBand b -> inBand (struck k b).
Proof. unfold struck. destruct (b_health b <=? 0)%Z; auto. Qed.

Lemma step_inBand (random : nat -> R) (w : World) (e : Event) :
  Forall inBand (bacteriaRef w) ->
  Forall inBand (bacteriaRef (step random w e)).
Proof.
  intro Hb. destruct e as [camera now | delta cameraPos now];
    cbn [step bacteriaRef]; [exact Hb |].
  rewrite animate_bacteria, updateProjectiles_bacteria.
  apply keepUnmarked_Forall. apply Forall_map.
  eapply Forall_impl; [intros b; apply struck_inBand |].
  apply updateBacteria_Forall; [| exact Hb].
  intros b n. apply steer_inBand.
Qed.

Lemma run_inBand (random : nat -> R) (events : list Event) :
  forall w, Forall inBand (bacteriaRef w) ->
            Forall inBand (bacteriaRef (run random events w)).
Proof.
  unfold run. induction events as [| e rest IH]; intros w Hb; [exact Hb |].
  cbn [fold_left]. apply IH, step_inBand, Hb.
Qed.

(** X3.  From the mounted component, after any sequence of clicks and
    frames, every bacterium in the list is at a height between 0.5 and 5. *)
Theorem bacteria_stay_in_band (random : nat -> R) (events : list Event)
    (Hrandom : forall k, 0 <= random k < 1) :
  exists w0,
    mount random = Some w0 /\
    Forall (fun b => 0.5 <= Vector3.y (b_position b) <= 5)
           (bacteriaRef (run random events w0)).
Proof.
  destruct (mount_full random Hrandom) as (w0 & Hm & _ & _ & _ & Hall).
  exists w0. split; [exact Hm |].
  apply (run_inBand random events w0).
  eapply Forall_impl; [| exact Hall].
  intros b (_ & Hy & _). unfold inBand. lra.
Qed.

Lemma bacteria_stay_in_band_witness :
  exists w0,
    mount (fun _ => 0) = Some w0 /\
    Forall (fun b => 0.5 <= Vector3.y (b_position b) <= 5)
      (bacteriaRef
         (run (fun _ => 0)
              [Frame 0.016 (Vector3.mk 0 1.6 0) (fun _ => 16%Z)] w0)).
Proof.
  apply (bacteria_stay_in_band (fun _ => 0)). intro k. lra.
Defined.

(** ** Kills, removals and the books *)

Lemma splice1_length {A : Type} (l : list A) :
  forall i a, nth_error l i = Some a ->
    S (List.length (splice1 i l)) = List.length l.
Proof.
  induction l as [| c rest IH]; intros [| i] a H; simpl in *;
    try discriminate; [reflexivity |].
  f_equal. apply (IH i a H).
Qed.

Lemma scoreKill_counts (cap : Captured) (b : Bacteria) (st : GameState) :
  bacteriaKilled (scoreKill cap b st) = (bacteriaKilled st + 1)%Z /\
  totalBacteria (scoreKill cap b st) = totalBacteria st /\
  List.length (onScoreUpdate_calls (scoreKill cap b st)) =
    S (List.length (onScoreUpdate_calls st)).
Proof.
  unfold scoreKill.
  destruct ((bacteriaKilled
               (onScoreUpdate (cap_score cap + points (b_type b))
                  (setScore (cap_score cap + points (b_type b)) st)) + 1 >=?
             completionThreshold (cap_totalBacteria cap))%Z
            && negb (cap_gameComplete cap));
    cbn [setBacteriaKilled onComplete setScore setGameComplete onScoreUpdate
         bacteriaKilled totalBacteria onScoreUpdate_calls];
    rewrite length_app; cbn [List.length]; repeat split; lia.
Qed.

Lemma removeBacteria_counts (cap : Captured) (indices : list nat) :
  forall bs st,
    (bacteriaKilled (snd (removeBacteria cap indices bs st))
     + Z.of_nat (List.length (fst (removeBacteria cap indices bs st)))
     = bacteriaKilled st + Z.of_nat (List.length bs))%Z /\
    totalBacteria (snd (removeBacteria cap indices bs st)) = totalBacteria st /\
    (Z.of_nat (List.length
                 (onScoreUpdate_calls (snd (removeBacteria cap indices bs st))))
     - bacteriaKilled (snd (removeBacteria cap indices bs st))
     = Z.of_nat (List.length (onScoreUpdate_calls st)) - bacteriaKilled st)%Z.
Proof.
  unfold removeBacteria.
  induction indices as [| i rest IH]; intros bs st; [cbn; lia |].
  cbn [fold_left]. destruct (nth_error bs i) as [b |] eqn:Hn; [| apply IH].
  destruct (IH (splice1 i bs) (scoreKill cap b st)) as (H1 & H2 & H3).
  destruct (scoreKill_counts cap b st) as (K1 & K2 & K3).
  pose proof (splice1_length bs i b Hn) as Hl.
  rewrite H1, H2, H3, K1, K2, K3. repeat split; lia.
Qed.

Lemma updateBacteria_length (random : nat -> R) (playerPos : Vec3)
    (deltaTime : R) (bs : list Bacteria) :
  forall n,
    List.length (fst (updateBacteria random playerPos deltaTime bs n)) =
    List.length bs.
Proof.
  induction bs as [| b rest IH]; intro n; [reflexivity |].
  cbn [updateBacteria]. unfold bind, ret.
  destruct (steer random playerPos deltaTime b n) as [b' n1].
  specialize (IH n1).
  destruct (updateBacteria random playerPos deltaTime rest n1) as [rest' n2].
  cbn [fst List.length] in *. lia.
Qed.

Lemma updateProjectiles_counts (cap : Captured) (now : nat -> Z)
    (deltaTime : R) (ps : list Projectile) (bs : list Bacteria)
    (st : GameState) :
  let r := updateProjectiles cap now deltaTime ps bs st in
  (bacteriaKilled (snd r) + Z.of_nat (List.length (snd (fst r)))
   = bacteriaKilled st + Z.of_nat (List.length bs))%Z /\
  totalBacteria (snd r) = totalBacteria st /\
  (Z.of_nat (List.length (onScoreUpdate_calls (snd r))) - bacteriaKilled (snd r)
   = Z.of_nat (List.length (onScoreUpdate_calls st)) - bacteriaKilled st)%Z.
Proof.
  cbv zeta. unfold updateProjectiles.
  pose proof (moveAndCollide_bacteria now deltaTime ps 0 bs (mkMarks [] []))
    as Hbs.
  destruct (moveAndCollide now deltaTime 0 ps bs (mkMarks [] []))
    as [[ps1 bs1] m].
  pose proof (removeBacteria_counts cap (uniqueDesc (bacteriaToRemove m)) bs1 st)
    as Hc.
  destruct (removeBacteria cap (uniqueDesc (bacteriaToRemove m)) bs1 st)
    as [bs2 st2].
  cbn [fst snd] in *. subst bs1. rewrite length_map in Hc. exact Hc.
Qed.

Lemma completionEffect_counts (st : GameState) :
  bacteriaKilled (completionEffect st) = bacteriaKilled st /\
  totalBacteria (completionEffect st) = totalBacteria st /\
  onScoreUpdate_calls (completionEffect st) = onScoreUpdate_calls st.
Proof.
  unfold completionEffect.
  destruct ((bacteriaKilled st >? 0)%Z && (totalBacteria st >? 0)%Z);
    [| auto].
  destruct ((bacteriaKilled st >=? completionThreshold (totalBacteria st))%Z
            && negb (gameComplete st)); auto.
Qed.

Lemma step_books (random : nat -> R) (w : World) (e : Event) :
  booksBalance w ->
  booksBalance (step random w e) /\
  totalBacteria (state (step random w e)) = totalBacteria (state w).
Proof.
  intros [Hb Hu]. destruct e as [camera now | delta cameraPos now];
    cbn [step]; [split; [split |]; assumption || reflexivity |].
  unfold animate.
  pose proof (updateBacteria_length random cameraPos (Rmin delta 0.1)
                (bacteriaRef w) (calls w)) as Hl.
  destruct (updateBacteria random cameraPos (Rmin delta 0.1) (bacteriaRef w)
              (calls w)) as [bs1 n1].
  pose proof (updateProjectiles_counts mountClosure now (Rmin delta 0.1)
                (projectilesRef w) bs1 (state w)) as Hc.
  destruct (updateProjectiles mountClosure now (Rmin delta 0.1)
              (projectilesRef w) bs1 (state w)) as [[ps2 bs2] st2].
  cbv zeta in Hc. cbn [fst snd] in *.
  destruct Hc as (H1 & H2 & H3).
  destruct (completionEffect_counts st2) as (E1 & E2 & E3).
  unfold booksBalance. cbn [state bacteriaRef]. rewrite E1, E2, E3.
  repeat split; lia.
Qed.

Lemma run_books (random : nat -> R) (events : list Event) :
  forall w, booksBalance w ->
    booksBalance (run random events w) /\
    totalBacteria (state (run random events w)) = totalBacteria (state w).
Proof.
  unfold run. induction events as [| e rest IH]; intros w Hb; [auto |].
  cbn [fold_left]. destruct (step_books random w e Hb) as [Hb1 Ht1].
  destruct (IH _ Hb1) as [Hb2 Ht2]. split; [exact Hb2 | congruence].
Qed.

(** X6.  From the mounted component, after any sequence of clicks and
    frames, the kill count plus the number of bacteria still in the list is
    the total, which never changes; the kill count is therefore between 0
    and the total, and the score callback has been called exactly once per
    kill. *)
Theorem kills_and_survivors_make_total (random : nat -> R)
    (events : list Event)
    (Hrandom : forall k, 0 <= random k < 1) :
  exists w0,
    mount random = Some w0 /\
    let w := run random events w0 in
    (bacteriaKilled (state w) + Z.of_nat (List.length (bacteriaRef w))
     = totalBacteria (state w))%Z /\
    totalBacteria (state w) = totalBacteria (state w0) /\
    (0 <= bacteriaKilled (state w) <= totalBacteria (state w))%Z /\
    Z.of_nat (List.length (onScoreUpdate_calls (state w))) =
      bacteriaKilled (state w).
Proof.
  destruct (mount_full random Hrandom) as (w0 & Hm & _ & Hst & _ & _).
  exists w0. split; [exact Hm |]. cbv zeta.
  assert (Hb0 : booksBalance w0).
  { unfold booksBalance. rewrite Hst. cbn. split; lia. }
  destruct (run_books random events w0 Hb0) as [[Hb Hu] Ht].
  repeat split; try assumption; lia.
Qed.

Lemma kills_and_survivors_make_total_witness :
  exists w0,
    mount (fun _ => 0) = Some w0 /\
    let w := run (fun _ => 0)
                 [Frame 0.016 (Vector3.mk 0 1.6 0) (fun _ => 16%Z)] w0 in
    (bacteriaKilled (state w) + Z.of_nat (List.length (bacteriaRef w))
     = totalBacteria (state w))%Z.
Proof.
  destruct (kills_and_survivors_make_total (fun _ => 0)
              [Frame 0.016 (Vector3.mk 0 1.6 0) (fun _ => 16%Z)])
    as (w0 & Hm & Hb & _).
  - intro k. lra.
  - exists w0. split; assumption.
Defined.

(** ** Passes without a hit *)

Lemma moveAndCollide_miss (now : nat -> Z) (deltaTime : R)
    (ps : list Projectile) (bs : list Bacteria) :
  Forall (fun p =>
            Forall (fun b => hits (p_position (advance deltaTime p)) b = false)
                   bs) ps ->
  forall pIndex m,
    snd (fst (moveAndCollide now deltaTime pIndex ps bs m)) = bs /\
    bacteriaToRemove (snd (moveAndCollide now deltaTime pIndex ps bs m)) =
      bacteriaToRemove m.
Proof.
  induction 1 as [| p rest Hp Hrest IH]; intros pIndex m; [auto |].
  cbn [moveAndCollide]. unfold handleProjectile.
  destruct (expired (now pIndex) (advance deltaTime p)).
  - specialize (IH (S pIndex)
                   (mkMarks (projectilesToRemove m ++ [pIndex])
                            (bacteriaToRemove m))).
    destruct (moveAndCollide now deltaTime (S pIndex) rest bs
                (mkMarks (projectilesToRemove m ++ [pIndex])
                         (bacteriaToRemove m))) as [[rest' bs2] m2].
    exact IH.
  - rewrite (checkCollisions_miss _ _ _ Hp). specialize (IH (S pIndex) m).
    destruct (moveAndCollide now deltaTime (S pIndex) rest bs m)
      as [[rest' bs2] m2].
    exact IH.
Qed.

Lemma keepUnmarked_liveAfter (now : nat -> Z) (deltaTime : R)
    (marks : list nat) (ps : list Projectile) :
  forall i,
    (forall j p, nth_error ps j = Some p ->
       (In (i + j)%nat marks <->
        expired (now (i + j)%nat) (advance deltaTime p) = true)) ->
    keepUnmarked marks i (map (advance deltaTime) ps) =
    liveAfter now deltaTime i ps.
Proof.
  induction ps as [| p rest IH]; intros i Hm; [reflexivity |].
  cbn [map keepUnmarked liveAfter].
  assert (Hrest : keepUnmarked marks (S i) (map (advance deltaTime) rest) =
                  liveAfter now deltaTime (S i) rest).
  { apply IH. intros j q Hq. specialize (Hm (S j) q Hq).
    replace (S i + j)%nat with (i + S j)%nat by lia. exact Hm. }
  specialize (Hm 0%nat p eq_refl). rewrite Nat.add_0_r in Hm.
  destruct (expired (now i) (advance deltaTime p)) eqn:He.
  - assert (Hex : existsb (Nat.eqb i) marks = true)
      by (apply existsb_eqb_In, Hm; reflexivity).
    rewrite Hex. exact Hrest.
  - assert (Hex : existsb (Nat.eqb i) marks = false).
    { apply not_true_is_false. intro Hc. apply existsb_eqb_In, Hm in Hc.
      discriminate. }
    rewrite Hex, Hrest. reflexivity.
Qed.

(** X7.  A pass in which no projectile, once moved, lies within 0.6 of any
    bacterium leaves the bacteria and the whole game state (score, kills,
    callbacks) as they were; the projectiles that remain are the unexpired
    ones, moved, in their old order.  In particular a pass without
    projectiles or without bacteria changes neither bacteria nor state. *)
Theorem missed_shots_change_nothing (cap : Captured) (now : nat -> Z)
    (deltaTime : R) (ps : list Projectile) (bs : list Bacteria)
    (st : GameState)
    (Hmiss : Forall (fun p =>
                Forall (fun b =>
                          hits (p_position (advance deltaTime p)) b = false)
                       bs) ps) :
  updateProjectiles cap now deltaTime ps bs st =
  (liveAfter now deltaTime 0 ps, bs, st).
Proof.
  unfold updateProjectiles.
  pose proof (moveAndCollide_projectiles now deltaTime ps 0 bs (mkMarks [] []))
    as Hps.
  pose proof (moveAndCollide_miss now deltaTime ps bs Hmiss 0 (mkMarks [] []))
    as [Hbs Hmarks].
  pose proof (moveAndCollide_marks_sound now deltaTime ps 0 bs (mkMarks [] []))
    as Hsound.
  pose proof (moveAndCollide_marks_expired now deltaTime ps 0 bs (mkMarks [] []))
    as Hexp.
  destruct (moveAndCollide now deltaTime 0 ps bs (mkMarks [] []))
    as [[ps1 bs1] m].
  cbn [fst snd bacteriaToRemove] in *. subst bs1 ps1. rewrite Hmarks.
  cbn [uniqueDesc dedupe sortDesc fold_right removeBacteria fold_left].
  rewrite removeProjectiles_keepUnmarked. f_equal. f_equal.
  apply keepUnmarked_liveAfter. intros j p Hp. cbn [Nat.add]. split.
  - intro Hin. destruct (Hsound j Hin) as [[] | (i & q & Hj & Hq & Hc)].
    cbn [Nat.add] in Hj. subst i. rewrite Hp in Hq. injection Hq as <-.
    destruct Hc as [Hc | Hex]; [exact Hc |].
    exfalso. rewrite Forall_forall in Hmiss.
    pose proof (Hmiss p (nth_error_In _ _ Hp)) as Hpm.
    apply Exists_exists in Hex. destruct Hex as (b & Hb & Hhit).
    rewrite Forall_forall in Hpm. rewrite (Hpm b Hb) in Hhit. discriminate.
  - intro He. apply (Hexp j p Hp He).
Qed.

Lemma missed_shots_change_nothing_witness :
  updateProjectiles mountClosure (fun _ => 100%Z) 0.016 [shotAtStrep]
    (repeat farCell 10) initialState =
  (liveAfter (fun _ => 100%Z) 0.016 0 [shotAtStrep], repeat farCell 10,
   initialState).
Proof.
  apply missed_shots_change_nothing.
  constructor; [| constructor].
  apply Forall_forall. intros c Hc. apply repeat_spec in Hc. subst c.
  apply hits_false_iff. unfold Vector3.distanceToSquared. simpl. lra.
Defined.

(** X8.  Whatever indices a pass has marked, in whatever order, with
    repetitions or out of range, sorting the distinct marks in descending
    order and splicing them out one by one removes exactly the elements at
    the marked positions and keeps the others in their order, for the
    projectiles and for the bacteria alike. *)
Theorem marked_elements_are_removed (cap : Captured) (marks : list nat)
    (ps : list Projectile) (bs : list Bacteria) (st : GameState) :
  descending (uniqueDesc marks) /\
  (forall j, In j (uniqueDesc marks) <-> In j marks) /\
  removeProjectiles (uniqueDesc marks) ps = keepUnmarked marks 0 ps /\
  fst (removeBacteria cap (uniqueDesc marks) bs st) = keepUnmarked marks 0 bs.
Proof.
  split; [apply uniqueDesc_descending |].
  split; [intro j; apply In_uniqueDesc |].
  split; [apply removeProjectiles_keepUnmarked |].
  apply removeBacteria_keepUnmarked.
Qed.

(** ** The completion effect and its threshold *)

Lemma completionThreshold_closed (n : Z) :
  completionThreshold n = ((4 * n + 4) / 5)%Z.
Proof.
  unfold completionThreshold. apply Zceil_eq.
  pose proof (Z.div_mod (4 * n + 4) 5 ltac:(lia)) as Hdm.
  pose proof (Z.mod_pos_bound (4 * n + 4) 5 ltac:(lia)) as Hmod.
  set (t := ((4 * n + 4) / 5)%Z) in *.
  assert (H1 : (5 * t - 5 < 4 * n)%Z) by lia.
  assert (H2 : (4 * n <= 5 * t)%Z) by lia.
  apply IZR_lt in H1. apply IZR_le in H2.
  rewrite minus_IZR, !mult_IZR in H1. rewrite !mult_IZR in H2.
  split; lra.
Qed.

(** X9.  The completion threshold [Math.ceil(total * 0.8)] is the integer
    [(4 * total + 4) / 5] (rounded down); it grows with the total, and for a
    total of at least 1 it is at least 1 and at most the total, so a level
    with bacteria can always be completed and never is without a kill. *)
Theorem completionThreshold_reachable (total other : Z)
    (Htotal : (1 <= total)%Z) (Hle : (total <= other)%Z) :
  completionThreshold total = ((4 * total + 4) / 5)%Z /\
  (1 <= completionThreshold total <= total)%Z /\
  (completionThreshold total <= completionThreshold other)%Z.
Proof.
  rewrite !completionThreshold_closed.
  split; [reflexivity |]. split.
  - pose proof (Z.div_mod (4 * total + 4) 5 ltac:(lia)) as Hdm.
    pose proof (Z.mod_pos_bound (4 * total + 4) 5 ltac:(lia)) as Hmod.
    lia.
  - apply Z.div_le_mono; lia.
Qed.

Lemma completionThreshold_reachable_witness :
  (1 <= completionThreshold 20 <= 20)%Z.
Proof.
  apply (completionThreshold_reachable 20 20); lia.
Defined.

Lemma completionEffect_cases (st : GameState) :
  (gameComplete st = false /\
   (completionThreshold (totalBacteria st) <= bacteriaKilled st)%Z /\
   completionEffect st =
     mkGameState (score st + 50) (bacteriaKilled st) (totalBacteria st) true
                 (onScoreUpdate_calls st)
                 (onComplete_calls st ++ [Z.min 100 (score st + 50)])) \/
  completionEffect st = st.
Proof.
  unfold completionEffect.
  destruct ((bacteriaKilled st >? 0)%Z && (totalBacteria st >? 0)%Z);
    [| right; reflexivity].
  destruct ((bacteriaKilled st >=? completionThreshold (totalBacteria st))%Z
            && negb (gameComplete st)) eqn:Hfire; [| right; reflexivity].
  apply andb_true_iff in Hfire. destruct Hfire as [Hge Hnot].
  apply Z.geb_le in Hge. apply negb_true_iff in Hnot.
  left. auto.
Qed.

(** X10.  The completion effect fires at most once: it appends at most one
    call of the completion callback, with a value of at most 100, never
    lowers the score, leaves kills and total alone, does nothing once the
    flag is set, and applying it twice is the same as applying it once. *)
Theorem completionEffect_once (st : GameState) :
  completionEffect (completionEffect st) = completionEffect st /\
  (exists suffix,
     onComplete_calls (completionEffect st) = onComplete_calls st ++ suffix /\
     (List.length suffix <= 1)%nat /\
     Forall (fun v => (v <= 100)%Z) suffix /\
     (suffix <> [] -> gameComplete st = false /\
        score (completionEffect st) = (score st + 50)%Z /\
        (completionThreshold (totalBacteria st) <= bacteriaKilled st)%Z)) /\
  (score st <= score (completionEffect st))%Z /\
  bacteriaKilled (completionEffect st) = bacteriaKilled st /\
  totalBacteria (completionEffect st) = totalBacteria st /\
  (gameComplete st = true -> completionEffect st = st) /\
  (gameComplete st = true -> gameComplete (completionEffect st) = true).
Proof.
  destruct (completionEffect_cases st) as [(Hnot & Hge & Hfired) | Hsame].
  - rewrite Hfired. split; [apply completionEffect_done; reflexivity |].
    split.
    { exists [Z.min 100 (score st + 50)]. split; [reflexivity |].
      split; [cbn; lia |]. split; [repeat constructor; lia |].
      intros _. cbn. auto. }
    cbn [score bacteriaKilled totalBacteria gameComplete].
    repeat split; try lia; intro Hc; congruence.
  - rewrite Hsame. split; [exact Hsame |].
    split.
    { exists []. rewrite app_nil_r. split; [reflexivity |].
      split; [cbn; lia |]. split; [constructor |]. intro Hc. congruence. }
    repeat split; auto; lia.
Qed.

Lemma marked_elements_are_removed_witness :
  removeProjectiles (uniqueDesc [2; 0; 2; 7]%nat)
    [shotAtStrep; shotAtColi; shotAtStrep] = [shotAtColi].
Proof.
  destruct (marked_elements_are_removed mountClosure [2; 0; 2; 7]%nat
              [shotAtStrep; shotAtColi; shotAtStrep] [] initialState)
    as (_ & _ & H & _).
  rewrite H. reflexivity.
Defined.

Lemma completionEffect_once_witness :
  let st := mkGameState 35 10 12 false [10; 25]%Z [] in
  completionEffect (completionEffect st) = completionEffect st.
Proof.
  intro st. apply (completionEffect_once st).
Defined.

(** ** Rooms and tunnels *)

(** X11.  In every generated level no two rooms overlap: for any two of the
    five rooms, a wall plane of one lies strictly beyond the opposite wall
    plane of the other. *)
Theorem rooms_do_not_overlap (random : nat -> R) (n : nat)
    (Hrandom : forall k, 0 <= random k < 1) :
  ForallOrdPairs footprintsDisjoint (fst (generateLevel random n)).
Proof.
  rewrite generateLevel_explicit. cbn [fst].
  repeat match goal with
  | |- context [random ?k] =>
      lazymatch goal with
      | H : _ <= random k < 1 |- _ => fail
      | _ => pose proof (Hrandom k)
      end
  end.
  repeat (apply FOP_cons;
          [repeat apply Forall_cons; try apply Forall_nil |]);
    try apply FOP_nil;
    unfold footprintsDisjoint, leftWall, rightWall, frontWall, backWall,
      spawnRoom;
    cbn [position width depth Vector3.x Vector3.z];
    first [ left; lra | right; left; lra | right; right; left; lra
          | right; right; right; lra ].
Qed.

Lemma rooms_do_not_overlap_witness :
  ForallOrdPairs footprintsDisjoint (fst (generateLevel (fun _ => 0) 0%nat)).
Proof.
  apply (rooms_do_not_overlap (fun _ => 0) 0%nat). intro k. lra.
Defined.

Lemma distanceTo_length_sub (a v : Vec3) :
  Vector3.distanceTo a v = Vector3.length (Vector3.sub v a).
Proof.
  unfold Vector3.distanceTo, Vector3.length. f_equal.
  unfold Vector3.distanceToSquared, Vector3.lengthSq, Vector3.sub. simpl. ring.
Qed.

Lemma sqrt_ge (s r : R) : 0 <= r -> r * r <= s -> r <= sqrt s.
Proof.
  intros Hr Hs. rewrite <- (sqrt_square r Hr). apply sqrt_le_1_alt. exact Hs.
Qed.

(** X12.  For a room whose centre is not straight above or below the spawn
    point, the tunnel axis has length 1, the tunnel is centred half-way at
    height 1.5, and its axis segment, of the tunnel's length and lengthened
    by 4 units at either end, runs exactly from the spawn point to the room
    centre (both taken at height 1.5); in a generated level every tunnel is
    at least 12 units long. *)
Theorem tunnel_spans_the_gap (random : nat -> R) (n : nat) (room : Room)
    (Hfar : Vector3.length (Vector3.sub (tunnelEnd room) tunnelStart) <> 0) :
  Vector3.lengthSq (tunnelDirection room) = 1 /\
  Vector3.y (tunnelMidPoint room) = 1.5 /\
  Vector3.add (tunnelMidPoint room)
    (Vector3.multiplyScalar (tunnelDirection room) (tunnelLength room / 2 + 4))
  = tunnelEnd room /\
  Vector3.sub (tunnelMidPoint room)
    (Vector3.multiplyScalar (tunnelDirection room) (tunnelLength room / 2 + 4))
  = tunnelStart /\
  Forall (fun r => 12 <= tunnelLength r) (tl (fst (generateLevel random n))).
Proof.
  split; [apply normalize_unit, Hfar |].
  split; [unfold tunnelMidPoint, tunnelStart, tunnelEnd; simpl; lra |].
  assert (Hdir : tunnelDirection room =
                 Vector3.divideScalar (Vector3.sub (tunnelEnd room) tunnelStart)
                   (Vector3.length (Vector3.sub (tunnelEnd room) tunnelStart))).
  { unfold tunnelDirection. rewrite normalize_cases.
    destruct (Req_dec_T _ 0); [contradiction | reflexivity]. }
  assert (Hlen : tunnelLength room / 2 + 4 =
                 Vector3.length (Vector3.sub (tunnelEnd room) tunnelStart) / 2).
  { unfold tunnelLength. rewrite distanceTo_length_sub. lra. }
  split; [| split].
  - rewrite Hdir, Hlen.
    set (l := Vector3.length (Vector3.sub (tunnelEnd room) tunnelStart)) in *.
    unfold tunnelMidPoint, Vector3.add, Vector3.divideScalar,
      Vector3.multiplyScalar, Vector3.sub, tunnelStart, tunnelEnd, Vector3.setY.
    cbn [Vector3.x Vector3.y Vector3.z].
    assert (Hhalf : 1 / l * (l / 2) = 1 / 2) by (field; exact Hfar).
    f_equal; rewrite Rmult_assoc, Hhalf; lra.
  - rewrite Hdir, Hlen.
    set (l := Vector3.length (Vector3.sub (tunnelEnd room) tunnelStart)) in *.
    unfold tunnelMidPoint, Vector3.add, Vector3.divideScalar,
      Vector3.multiplyScalar, Vector3.sub, tunnelStart, tunnelEnd, Vector3.setY.
    cbn [Vector3.x Vector3.y Vector3.z].
    assert (Hhalf : 1 / l * (l / 2) = 1 / 2) by (field; exact Hfar).
    f_equal; rewrite Rmult_assoc, Hhalf; lra.
  - rewrite generateLevel_explicit. cbn [fst tl].
    repeat apply Forall_cons; try apply Forall_nil;
      unfold tunnelLength, Vector3.distanceTo;
      match goal with
      | |- 12 <= sqrt ?s - 8 =>
          assert (20 <= sqrt s);
          [apply sqrt_ge; [lra |];
           unfold Vector3.distanceToSquared, tunnelStart, tunnelEnd; simpl; lra
          | lra]
      end.
Qed.

Lemma tunnel_spans_the_gap_witness :
  let room := mkRoom (Vector3.mk 20 0 0) 10 5 10 true in
  Vector3.lengthSq (tunnelDirection room) = 1.
Proof.
  intro room.
  apply (tunnel_spans_the_gap (fun _ => 0) 0%nat room).
  intro Hc. apply length_zero_iff in Hc.
  unfold Vector3.lengthSq, tunnelEnd, tunnelStart in Hc. simpl in Hc. lra.
Defined.

(** ** The camera and the player *)

Lemma updatePlayer_cases (locked : bool) (keys : list string) (deltaTime : R)
    (pl : Player) :
  updatePlayer locked keys deltaTime pl = pl \/
  (locked = true /\ 0 < Vector3.lengthSq (moveInput keys) /\
   updatePlayer locked keys deltaTime pl =
   mkPlayer
     (Vector3.add (pl_position pl)
        (playerMove keys deltaTime (quaternion (cameraOf pl))))
     (pl_rotation pl)
     (Vector3.add (pl_position pl)
        (playerMove keys deltaTime (quaternion (cameraOf pl))))).
Proof.
  unfold updatePlayer. destruct locked; cbn [negb]; [| left; reflexivity].
  destruct (Rlt_dec 0 (Vector3.lengthSq (moveInput keys))) as [Hm | Hm];
    [right; auto | left; reflexivity].
Qed.

(** X13.  [updatePlayer] never changes the camera's height or rotation,
    whatever keys are held and wherever the camera looks (the vertical part
    of the step is set to 0 before it is added); it changes the player only
    while the pointer is locked, and whenever it does, it leaves
    [playerPositionRef] equal to the camera position. *)
Theorem player_walks_on_the_ground (locked : bool) (keys : list string)
    (deltaTime : R) (pl : Player) :
  let pl' := updatePlayer locked keys deltaTime pl in
  Vector3.y (pl_position pl') = Vector3.y (pl_position pl) /\
  pl_rotation pl' = pl_rotation pl /\
  (pl' = pl \/
   (locked = true /\ playerPositionRef pl' = pl_position pl')).
Proof.
  cbv zeta.
  destruct (updatePlayer_cases locked keys deltaTime pl)
    as [Hsame | (Hlocked & _ & Hmove)].
  - rewrite Hsame. repeat split; auto.
  - rewrite Hmove. cbn [pl_position pl_rotation playerPositionRef].
    split.
    + cbn [Vector3.add Vector3.y]. unfold playerMove.
      cbn [Vector3.setY Vector3.y]. lra.
    + split; [reflexivity | right; split; [exact Hlocked | reflexivity]].
Qed.

(** X14.  [updatePlayer] leaves the player exactly as it is while the
    pointer is not locked, and also when forward and back are held alike and
    left and right are held alike (no key at all, or opposite keys, which
    cancel). *)
Theorem player_stands_still (locked : bool) (keys : list string)
    (deltaTime : R) (pl : Player)
    (Hstill :
       locked = false \/
       ((has keys "keyw" || has keys "arrowup") =
        (has keys "keys" || has keys "arrowdown") /\
        (has keys "keya" || has keys "arrowleft") =
        (has keys "keyd" || has keys "arrowright"))) :
  updatePlayer locked keys deltaTime pl = pl.
Proof.
  destruct Hstill as [-> | [Hz Hx]]; [reflexivity |].
  unfold updatePlayer. destruct locked; cbn [negb]; [| reflexivity].
  assert (Hzero : Vector3.lengthSq (moveInput keys) = 0).
  { unfold moveInput. rewrite Hz, Hx.
    destruct (has keys "keys" || has keys "arrowdown");
      destruct (has keys "keyd" || has keys "arrowright");
      unfold Vector3.lengthSq; cbn [Vector3.x Vector3.y Vector3.z]; ring. }
  rewrite Hzero. destruct (Rlt_dec 0 0) as [Hc | _]; [lra | reflexivity].
Qed.

Lemma player_stands_still_witness :
  updatePlayer true ["keyw"; "arrowdown"]%string 0.1 initialPlayer
  = initialPlayer.
Proof.
  apply player_stands_still. right. split; reflexivity.
Defined.

Lemma pitch_bounds_ordered : - PI / 2 + 0.1 <= 0 <= PI / 2 - 0.1.
Proof. pose proof PI2_1. lra. Qed.

Lemma handleMouseMove_pitch (locked : bool) (movementX movementY : R)
    (rot : Euler) :
  - PI / 2 + 0.1 <= rot_x rot <= PI / 2 - 0.1 ->
  - PI / 2 + 0.1
    <= rot_x (handleMouseMove locked movementX movementY rot)
    <= PI / 2 - 0.1.
Proof.
  intro Hrot. unfold handleMouseMove. destruct locked; cbn [negb]; [| exact Hrot].
  cbn [rot_x]. pose proof pitch_bounds_ordered as Hb. split.
  - apply Rmax_l.
  - apply Rmax_lub; [lra | apply Rmin_l].
Qed.

Lemma handle_playerOk (random : nat -> R) (s : Session) (i : Input) :
  playerOk (player s) -> playerOk (player (handle random s i)).
Proof.
  intros (Hpitch & Hy & Href).
  destruct i as [code | code | mx my | locked | now | delta now];
    cbn [handle player]; try (split; [| split]; assumption).
  - unfold playerOk. cbn [pl_rotation pl_position playerPositionRef].
    split; [apply handleMouseMove_pitch, Hpitch | split; assumption].
  - destruct (isPointerLocked s); cbn [player]; split; [| split | | split];
      assumption.
  - destruct (updatePlayer_cases (isPointerLocked s) (keys s) (Rmin delta 0.1)
                (player s)) as [Hsame | (_ & _ & Hmove)].
    + rewrite Hsame. split; [| split]; assumption.
    + rewrite Hmove. unfold playerOk.
      cbn [pl_rotation pl_position playerPositionRef].
      split; [exact Hpitch |]. split; [| reflexivity].
      cbn [Vector3.add Vector3.y]. unfold playerMove. cbn [Vector3.setY Vector3.y].
      lra.
Qed.

(** X15.  Starting with the camera as the component places it, after any
    sequence of key, mouse, pointer-lock, click and frame events the camera
    pitch is within 0.1 of straight up and straight down at most (between
    [-PI/2 + 0.1] and [PI/2 - 0.1]), the camera is at height 1.6, and
    [playerPositionRef] equals the camera position. *)
Theorem player_invariants (random : nat -> R) (inputs : list Input)
    (w : World) (ks : list string) (locked : bool) :
  let pl := player (play random inputs (mkSession w initialPlayer ks locked)) in
  - PI / 2 + 0.1 <= rot_x (pl_rotation pl) <= PI / 2 - 0.1 /\
  Vector3.y (pl_position pl) = 1.6 /\
  playerPositionRef pl = pl_position pl.
Proof.
  cbv zeta.
  assert (Hgen : forall s, playerOk (player s) ->
                           playerOk (player (play random inputs s))).
  { unfold play. induction inputs as [| i rest IH]; intros s Hs; [exact Hs |].
    cbn [fold_left]. apply IH, handle_playerOk, Hs. }
  apply (Hgen (mkSession w initialPlayer ks locked)).
  unfold playerOk. cbn [player initialPlayer pl_rotation pl_position
                        playerPositionRef rot_x Vector3.y].
  split; [exact pitch_bounds_ordered | auto].
Qed.

(** ** Shots *)







(** X17.  A click while the pointer is not locked changes nothing.  A click
    while it is locked adds exactly one projectile at the end of the list,
    at the camera position, stamped with the time of the click, with speed
    25 and, as direction, the forward vector (0, 0, -1) rotated by the
    camera quaternion, which is the one built from the camera's pitch and
    yaw; bacteria, game state, player and keys are left alone, and there is
    no limit on how often this can happen. *)
Theorem click_shoots_where_camera_looks (random : nat -> R) (s : Session)
    (now : Z) :
  let s' := handle random s (MouseClick now) in
  if isPointerLocked s then
    projectilesRef (world s') =
      projectilesRef (world s) ++
      [ mkProjectile (pl_position (player s))
          (applyQuaternion (Vector3.mk 0 0 (-1))
             (setFromEulerYXZ (rot_x (pl_rotation (player s)))
                (rot_y (pl_rotation (player s))) 0))
          25 now ] /\
    bacteriaRef (world s') = bacteriaRef (world s) /\
    state (world s') = state (world s) /\
    player s' = player s /\ keys s' = keys s
  else s' = s.
Proof.
  cbv zeta. cbn [handle]. destruct (isPointerLocked s); [| reflexivity].
  cbn [world player keys step projectilesRef bacteriaRef state].
  repeat split.
Qed.

(** ** Keys *)

Lemma has_In (ks : list string) (k : string) : has ks k = true <-> In k ks.
Proof.
  unfold has. rewrite existsb_exists. split.
  - intros (x & Hin & Heq). apply String.eqb_eq in Heq. subst. exact Hin.
  - intro Hin. exists k. split; [exact Hin | apply String.eqb_refl].
Qed.

Lemma has_ext (ks1 ks2 : list string) (k : string) :
  (In k ks1 <-> In k ks2) -> has ks1 k = has ks2 k.
Proof.
  intro H. apply eq_true_iff_eq. rewrite !has_In. exact H.
Qed.

Lemma In_setAdd (k x : string) (ks : list string) :
  In x (setAdd k ks) <-> x = k \/ In x ks.
Proof.
  unfold setAdd. destruct (has ks k) eqn:Hk.
  - apply has_In in Hk. split; [auto |]. intros [-> | H]; assumption.
  - rewrite in_app_iff. simpl. intuition.
Qed.

Lemma In_setDelete (k x : string) (ks : list string) :
  In x (setDelete k ks) <-> In x ks /\ x <> k.
Proof.
  unfold setDelete. rewrite filter_In, negb_true_iff, String.eqb_neq.
  intuition.
Qed.

Lemma lowerAscii_idempotent (c : Ascii.ascii) :
  lowerAscii (lowerAscii c) = lowerAscii c.
Proof. destruct c as [[] [] [] [] [] [] [] []]; reflexivity. Qed.

Lemma toLowerCase_idempotent (s : string) :
  toLowerCase (toLowerCase s) = toLowerCase s.
Proof.
  induction s as [| c rest IH]; [reflexivity |].
  cbn [toLowerCase]. rewrite lowerAscii_idempotent, IH. reflexivity.
Qed.

(** X18.  The held keys behave as a set of lower-cased codes: after a key
    goes down its lower-cased code is in the set, after it goes up it is
    not; neither event changes whether any other code is in the set; the
    set never holds a code twice, so a repeated key-down changes nothing;
    and codes that differ only in letter case name the same key. *)
Theorem key_set_bookkeeping (code : string) (k : string) (ks : list string)
    (Hother : k <> toLowerCase code)
    (Hnodup : NoDup ks) :
  has (handleKeyDown code ks) (toLowerCase code) = true /\
  has (handleKeyUp code ks) (toLowerCase code) = false /\
  has (handleKeyDown code ks) k = has ks k /\
  has (handleKeyUp code ks) k = has ks k /\
  NoDup (handleKeyDown code ks) /\
  NoDup (handleKeyUp code ks) /\
  handleKeyDown code (handleKeyDown code ks) = handleKeyDown code ks /\
  handleKeyDown (toLowerCase code) ks = handleKeyDown code ks /\
  handleKeyUp (toLowerCase code) ks = handleKeyUp code ks.
Proof.
  unfold handleKeyDown, handleKeyUp. rewrite toLowerCase_idempotent.
  set (c := toLowerCase code) in *.
  assert (Hin : has (setAdd c ks) c = true).
  { apply has_In, In_setAdd. left. reflexivity. }
  split; [exact Hin |]. split.
  { apply not_true_is_false. rewrite has_In, In_setDelete. intuition. }
  split.
  { apply has_ext. rewrite In_setAdd. intuition. }
  split.
  { apply has_ext. rewrite In_setDelete. intuition. }
  split.
  { unfold setAdd. destruct (has ks c) eqn:Hc; [exact Hnodup |].
    apply NoDup_app; [exact Hnodup | repeat constructor; auto |].
    intros x Hx [<- | []]. apply has_In in Hx. congruence. }
  split; [apply NoDup_filter, Hnodup |].
  split; [| split; reflexivity].
  unfold setAdd at 1. rewrite Hin. reflexivity.
Qed.

Lemma key_set_bookkeeping_witness :
  has (handleKeyUp "KeyW" (handleKeyDown "KeyW" ["arrowup"%string]))
      "arrowup" = true.
Proof.
  destruct (key_set_bookkeeping "KeyW" "arrowup"
              (handleKeyDown "KeyW" ["arrowup"%string]))
    as (_ & _ & _ & H & _).
  - discriminate.
  - repeat constructor; simpl; intuition discriminate.
  - rewrite H. reflexivity.
Defined.

(** ** Who is removed *)

Lemma collide_kills_sound (ppos : Vec3) (pIndex bIndex : nat) (b : Bacteria)
    (m : Marks) (j : nat) :
  In j (bacteriaToRemove (snd (collide ppos pIndex bIndex b m))) ->
  In j (bacteriaToRemove m) \/
  (j = bIndex /\ (0 < b_health b)%Z /\ hits ppos b = true /\
   (b_health (damage ppos b) <= 0)%Z).
Proof.
  unfold collide, damage.
  destruct (b_health b <=? 0)%Z eqn:Hd; [auto |]. apply Z.leb_gt in Hd.
  destruct (hits ppos b); [| auto]. cbn [snd bacteriaToRemove].
  destruct (b_health (setHealth b (b_health b - 1)) <=? 0)%Z eqn:Hk; [| auto].
  apply Z.leb_le in Hk. rewrite in_app_iff. intros [H | [<- | []]]; auto.
Qed.

Lemma checkCollisions_kills_sound (ppos : Vec3) (pIndex : nat)
    (bs : list Bacteria) :
  forall bIndex m j,
    In j (bacteriaToRemove (snd (checkCollisions ppos pIndex bIndex bs m))) ->
    In j (bacteriaToRemove m) \/
    exists i b,
      j = (bIndex + i)%nat /\ nth_error bs i = Some b /\
      (0 < b_health b)%Z /\ hits ppos b = true /\
      (b_health (damage ppos b) <= 0)%Z.
Proof.
  induction bs as [| a rest IH]; intros bIndex m j Hin; [left; exact Hin |].
  cbn [checkCollisions] in Hin.
  pose proof (collide_kills_sound ppos pIndex bIndex a m j) as Hc.
  destruct (collide ppos pIndex bIndex a m) as [a' m1].
  specialize (IH (S bIndex) m1 j).
  destruct (checkCollisions ppos pIndex (S bIndex) rest m1) as [rest' m2].
  cbn [snd] in *.
  destruct (IH Hin) as [H1 | (i & b & Hj & Hn & Hrest)].
  - destruct (Hc H1) as [H0 | (Hj & Hrest)]; [left; exact H0 |].
    right. exists 0%nat, a. split; [lia |]. split; [reflexivity | exact Hrest].
  - right. exists (S i), b. split; [lia |]. split; [exact Hn | exact Hrest].
Qed.

(** Every bacterium marked during a pass had positive hit points before it
    and has none after it. *)
Lemma moveAndCollide_kills_sound (now : nat -> Z) (deltaTime : R)
    (ps : list Projectile) :
  forall pIndex bs m j,
    In j (bacteriaToRemove
            (snd (moveAndCollide now deltaTime pIndex ps bs m))) ->
    In j (bacteriaToRemove m) \/
    exists b,
      nth_error bs j = Some b /\ (0 < b_health b)%Z /\
      (b_health (struck (strikes now deltaTime pIndex ps b) b) <= 0)%Z.
Proof.
  induction ps as [| p rest IH]; intros pIndex bs m j Hin; [left; exact Hin |].
  cbn [moveAndCollide] in Hin. unfold handleProjectile in Hin.
  cbn [strikes].
  destruct (expired (now pIndex) (advance deltaTime p)) eqn:He.
  - specialize (IH (S pIndex) bs
                   (mkMarks (projectilesToRemove m ++ [pIndex])
                            (bacteriaToRemove m)) j).
    destruct (moveAndCollide now deltaTime (S pIndex) rest bs
                (mkMarks (projectilesToRemove m ++ [pIndex])
                         (bacteriaToRemove m))) as [[rest' bs2] m2].
    cbn [snd bacteriaToRemove negb andb] in *.
    destruct (IH Hin) as [H | (b & Hn & Hl & Hd)]; [left; exact H |].
    right. exists b. rewrite Z.add_0_l. auto.
  - pose proof (checkCollisions_kills_sound (p_position (advance deltaTime p))
                  pIndex bs 0 m j) as Hc.
    pose proof (checkCollisions_bacteria (p_position (advance deltaTime p))
                  pIndex bs 0 m) as Hb.
    destruct (checkCollisions (p_position (advance deltaTime p)) pIndex 0 bs m)
      as [bs1 m1].
    specialize (IH (S pIndex) bs1 m1 j).
    destruct (moveAndCollide now deltaTime (S pIndex) rest bs1 m1)
      as [[rest' bs2] m2].
    cbn [fst snd negb andb] in *. subst bs1.
    destruct (IH Hin) as [H1 | (b1 & Hn & Hl & Hd)].
    + destruct (Hc H1) as [H0 | (i & b & Hj & Hn & Hl & Hhit & Hd)];
        [left; exact H0 |].
      right. exists b. cbn [Nat.add] in Hj. subst i.
      split; [exact Hn |]. split; [exact Hl |].
      rewrite <- (strikes_damage now deltaTime rest
                    (p_position (advance deltaTime p)) b (S pIndex)).
      rewrite <- struck_damage by apply strikes_nonneg.
      rewrite struck_health.
      destruct (b_health (damage (p_position (advance deltaTime p)) b) <=? 0)%Z
        eqn:Hz; [exact Hd | apply Z.leb_gt in Hz; lia].
    + rewrite nth_error_map in Hn.
      destruct (nth_error bs j) as [b |] eqn:Hb; [| discriminate].
      injection Hn as <-. right. exists b. split; [reflexivity |].
      rewrite strikes_damage in Hd.
      rewrite struck_damage in Hd by apply strikes_nonneg.
      split; [| exact Hd].
      unfold damage in Hl. destruct (b_health b <=? 0)%Z eqn:Hz.
      * exact Hl.
      * apply Z.leb_gt in Hz. exact Hz.
Qed.

Lemma keepUnmarked_filter {A : Type} (f : A -> bool) (marks : list nat)
    (l : list A) :
  forall i,
    (forall j a, nth_error l j = Some a ->
       (In (i + j)%nat marks <-> f a = false)) ->
    keepUnmarked marks i l = filter f l.
Proof.
  induction l as [| a rest IH]; intros i Hm; [reflexivity |].
  cbn [keepUnmarked filter].
  assert (Hrest : keepUnmarked marks (S i) rest = filter f rest).
  { apply IH. intros j c Hc. specialize (Hm (S j) c Hc).
    replace (S i + j)%nat with (i + S j)%nat by lia. exact Hm. }
  specialize (Hm 0%nat a eq_refl). rewrite Nat.add_0_r in Hm.
  destruct (f a) eqn:Hf.
  - assert (Hex : existsb (Nat.eqb i) marks = false).
    { apply not_true_is_false. intro Hc. apply existsb_eqb_In, Hm in Hc.
      discriminate. }
    rewrite Hex, Hrest. reflexivity.
  - assert (Hex : existsb (Nat.eqb i) marks = true)
      by (apply existsb_eqb_In, Hm; reflexivity).
    rewrite Hex. exact Hrest.
Qed.

(** X20.  After a pass over bacteria that all have positive hit points, the
    list holds exactly the bacteria that still have positive hit points,
    each with one hit point less per projectile that reached it, in their
    old order: every bacterium brought to 0 is removed and no other is. *)
Theorem survivors_are_the_living (cap : Captured) (now : nat -> Z)
    (deltaTime : R) (ps : list Projectile) (bs : list Bacteria)
    (st : GameState)
    (Hlive : Forall (fun b => (0 < b_health b)%Z) bs) :
  snd (fst (updateProjectiles cap now deltaTime ps bs st)) =
  filter (fun b => (0 <? b_health b)%Z)
         (map (fun b => struck (strikes now deltaTime 0 ps b) b) bs).
Proof.
  rewrite updateProjectiles_bacteria.
  apply keepUnmarked_filter. intros j a Hn. cbn [Nat.add].
  rewrite nth_error_map in Hn.
  destruct (nth_error bs j) as [b |] eqn:Hb; [| discriminate].
  injection Hn as <-.
  assert (Hbl : (0 < b_health b)%Z).
  { rewrite Forall_forall in Hlive. apply Hlive.
    eapply nth_error_In. exact Hb. }
  rewrite Z.ltb_ge. split.
  - intro Hin.
    destruct (moveAndCollide_kills_sound now deltaTime ps 0 bs (mkMarks [] [])
                j Hin) as [[] | (b' & Hb' & _ & Hd)].
    rewrite Hb in Hb'. injection Hb' as <-. exact Hd.
  - intro Hd.
    apply (moveAndCollide_marks_killed now deltaTime ps 0 bs (mkMarks [] []) j b
             Hb Hbl Hd).
Qed.

Lemma survivors_are_the_living_witness :
  snd (fst (updateProjectiles mountClosure (fun _ => 100%Z) 0.016
              [shotAtStrep] [strepCell; coliCell] initialState)) =
  filter (fun b => (0 <? b_health b)%Z)
         (map (fun b =>
                 struck (strikes (fun _ => 100%Z) 0.016 0 [shotAtStrep] b) b)
              [strepCell; coliCell]).
Proof.
  apply survivors_are_the_living.
  repeat constructor.
Defined.
